(** * ATM withdrawal system: shallow embedding of [atm_machine.c]

    The development follows the C source function by function.

    - [int] is a 32-bit two's-complement integer, represented by a [Z]
      together with the explicit reduction [wrap] applied after every
      addition, subtraction and multiplication; [long] is its 64-bit
      analogue (LP64).  Division and remainder are C's truncating ones
      ([Z.quot], [Z.rem]).
    - A [double] is the rational number ([Q]) it stands for.  The one
      addition the program performs on doubles, [balance + 0.0001] in the
      funds test, is rounded to binary64 ([Double.plus]: round to nearest,
      ties to even); the debit [balance -= amount] takes away an [int] that
      has passed the funds test, which binary64 does without rounding, and
      is the exact difference.  The conversion [(int)x] truncates toward
      zero.
    - Values read from the terminal ([safeScanInt], [safeScanDouble]) are
      arguments of the function that reads them.
    - The contents of the files are the in-memory records; the journal
      [transactions.txt] is a list that only grows. *)

From Stdlib Require Import ZArith QArith Lia Lqa Bool Ascii String.
From stdpp Require Import base tactics option list.

Local Open Scope Z_scope.

(** ** Machine integers *)

Module Int.

Definition INT_MIN : Z := - 2 ^ 31.
Definition INT_MAX : Z := 2 ^ 31 - 1.

Definition in_range (z : Z) : Prop := INT_MIN <= z <= INT_MAX.

(** Two's-complement reduction to 32 bits. *)
Definition wrap (z : Z) : Z := (z + 2 ^ 31) mod 2 ^ 32 - 2 ^ 31.

Definition add (a b : Z) : Z := wrap (a + b).
Definition sub (a b : Z) : Z := wrap (a - b).
Definition mul (a b : Z) : Z := wrap (a * b).

(** [a / b] and [a % b] of C, used here with non-zero constant divisors
    only, where neither can overflow. *)
Definition div (a b : Z) : Z := Z.quot a b.
Definition rem (a b : Z) : Z := Z.rem a b.

(** 64-bit [long]. *)
Definition wrap64 (z : Z) : Z := (z + 2 ^ 63) mod 2 ^ 64 - 2 ^ 63.
Definition ladd (a b : Z) : Z := wrap64 (a + b).
Definition lmul (a b : Z) : Z := wrap64 (a * b).

(** [(int)x] for a [double] [x]: the fractional part is discarded.  A value
    outside the range of [int] has no defined conversion; the x86-64
    instruction the cast compiles to yields [INT_MIN] there. *)
Definition of_double (x : Q) : Z :=
  let t := Z.quot (Qnum x) (Zpos (Qden x)) in
  if (INT_MIN <=? t) && (t <=? INT_MAX) then t else INT_MIN.

End Int.

(** ** Doubles *)

(** IEEE 754 binary64 arithmetic on the rationals: 53 significant bits, the
    last place never below [2 ^ -1074], round to nearest with ties to even.
    Values beyond the largest finite double are rounded as if the exponent
    had no upper limit. *)
Module Double.

Definition prec : Z := 53.
Definition emin : Z := -1074.

(** The integer nearest to [num / den], the even one of two that are equally
    near; [0 <= num], [0 < den]. *)
Definition nearest_even (num den : Z) : Z :=
  let q := num / den in
  let r := num mod den in
  if 2 * r <? den then q
  else if den <? 2 * r then q + 1
  else if Z.even q then q else q + 1.

(** The exponent of the greatest power of two that is at most [n / d], for
    [0 < n]. *)
Definition ilog2 (n : Z) (d : positive) : Z :=
  let e := Z.log2 n - Z.log2 (Zpos d) in
  if Zpos d * 2 ^ Z.max 0 e <=? n * 2 ^ Z.max 0 (- e) then e else e - 1.

(** The exponent of the last place of the doubles around [n / d]. *)
Definition ulp_exp (n : Z) (d : positive) : Z :=
  Z.max emin (ilog2 n d - (prec - 1)).

(** The double nearest to [n / d], for [0 < n]. *)
Definition round_pos (n : Z) (d : positive) : Q :=
  let e := ulp_exp n d in
  let m := nearest_even (n * 2 ^ Z.max 0 (- e)) (Zpos d * 2 ^ Z.max 0 e) in
  Qmake (m * 2 ^ Z.max 0 e) (Z.to_pos (2 ^ Z.max 0 (- e))).

Definition round (x : Q) : Q :=
  match Qnum x with
  | Z0 => 0%Q
  | Zpos _ => round_pos (Qnum x) (Qden x)
  | Zneg _ => Qopp (round_pos (- Qnum x) (Qden x))
  end.

(** [x + y] on doubles. *)
Definition plus (x y : Q) : Q := round (x + y).

(** The constant [0.0001] of the source: the double nearest to 1/10000. *)
Definition c0001 : Q := round (1 # 10000).

End Double.

(** ** Data: the structs of the program *)

(** [typedef struct { int note2000; int note500; int note200; int note100; } ATM;] *)
Record ATM := mkATM {
  note2000 : Z;
  note500 : Z;
  note200 : Z;
  note100 : Z
}.

(** An [int] cell handed to a callee by address.  The caller of
    [calculateDenominations] declares [possible] without an initialiser, so
    the cell starts [Indet g], holding whatever stale value [g] the stack
    slot contains; an assignment makes it [Init]. *)
Inductive cell :=
| Indet (garbage : Z)
| Init (v : Z).

Definition cell_val (c : cell) : Z :=
  match c with Indet g => g | Init v => v end.

(** The five out-parameters of [calculateDenominations], and a flag that
    records whether [*possible] has been read while still [Indet]. *)
Record dstate := mkD {
  n2000 : Z;
  n500 : Z;
  n200 : Z;
  n100 : Z;
  possible : cell;
  indet_read : bool
}.

Definition read_possible (s : dstate) : Z * dstate :=
  match possible s with
  | Init v => (v, s)
  | Indet g => (g, mkD (n2000 s) (n500 s) (n200 s) (n100 s) (possible s) true)
  end.

(** Control after a statement: fall through, or [return] was executed. *)
Inductive ctl :=
| Running (s : dstate)
| Returned (s : dstate).

(** ** calculateDenominations *)

(** [for (int r = start; r >= 0 && !( *possible ); --r) body]

    The loop runs only while [r >= 0], so the counter is kept as the
    natural number [k = r + 1]: at [k = 0] the test [r >= 0] fails (and,
    by short-circuit, [*possible] is not read); at [k = S k'] the counter
    is [r = k'] and the second conjunct reads [*possible]. *)
Fixpoint for_down (k : nat) (body : Z -> dstate -> ctl) (s : dstate) : ctl :=
  match k with
  | O => Running s
  | S k' =>
      let r := Z.of_nat k' in
      let (p, s1) := read_possible s in
      if negb (p =? 0) then Running s1
      else match body r s1 with
           | Returned s2 => Returned s2
           | Running s2 => for_down k' body s2
           end
  end.

(** Number of values of the counter from [start] down to 0. *)
Definition trips (start : Z) : nat := Z.to_nat (start + 1).

(** One block of the greedy pass:
    [use = remaining / d; if (use > avail) use = avail; remaining -= use * d;] *)
Definition greedy_take (d avail remaining : Z) : Z * Z :=
  let use := Int.div remaining d in
  let use := if use >? avail then avail else use in
  (use, Int.sub remaining (Int.mul use d)).

(** Body of the innermost loop (lines 388-400). *)
Definition try_combination (amount : Z) (atm : ATM) (r2000 r500 r200 : Z)
    (s : dstate) : ctl :=
  let rem := Int.sub amount
               (Int.add (Int.add (Int.mul r2000 2000) (Int.mul r500 500))
                        (Int.mul r200 200)) in
  if rem <? 0 then Running s                         (* continue *)
  else
    let need100 := Int.div rem 100 in
    if negb (Int.rem rem 100 =? 0) then Running s    (* continue *)
    else if need100 <=? note100 atm then
      Returned (mkD r2000 r500 r200 need100 (Init 1) (indet_read s))
    else Running s.

(** [possible0] is the content of [*possible] on entry.  The four counts are
    written before they are read, so their contents on entry play no part. *)
Definition calculateDenominations (amount : Z) (atm : ATM) (possible0 : cell)
    : dstate :=
  let remaining := amount in
  let '(u2000, remaining) := greedy_take 2000 (note2000 atm) remaining in
  let '(u500, remaining) := greedy_take 500 (note500 atm) remaining in
  let '(u200, remaining) := greedy_take 200 (note200 atm) remaining in
  let '(u100, remaining) := greedy_take 100 (note100 atm) remaining in
  let s := mkD u2000 u500 u200 u100 possible0 false in
  if remaining =? 0 then
    mkD u2000 u500 u200 u100 (Init 1) false
  else
    let backup2000 := n2000 s in
    let backup500 := n500 s in
    let backup200 := n200 s in
    let backup100 := n100 s in
    match
      for_down (trips backup2000) (fun r2000 =>
        for_down (trips backup500) (fun r500 =>
          for_down (trips backup200) (fun r200 =>
            try_combination amount atm r2000 r500 r200))) s
    with
    | Returned s' => s'
    | Running s' =>
        mkD backup2000 backup500 backup200 backup100 (Init 0) (indet_read s')
    end.


(** ** Accounts and the journal *)

(** [typedef struct { ... } Account;]  [balance] is a [double]. *)
Record Account := mkAccount {
  accountNumber : Z;
  pin : Z;
  balance : Q;
  name : string;
  loginAttempts : Z;
  locked : Z
}.

(** [typedef struct { ... } Transaction;] without the [datetime] text. *)
Record Transaction := mkTransaction {
  t_accountNumber : Z;
  t_type : string;
  t_amount : Q;
  t_remainingBalance : Q
}.

(** The process-wide state: the [accounts] array, the [atm] inventory and
    the file of journal lines (oldest first). *)
Record System := mkSystem {
  accounts : list Account;
  atm : ATM;
  journal : list Transaction
}.

(** [recordTransaction]: one more line at the end of the file. *)
Definition recordTransaction (t : Transaction) (j : list Transaction)
    : list Transaction :=
  j ++ [t].

(** [findAccountIndex]: index of the first account with that number;
    [None] stands for the C result [-1]. *)
Definition findAccountIndex (accNum : Z) (accs : list Account) : option nat :=
  fst <$> list_find (fun a => accountNumber a = accNum) accs.

(** ** login *)

(** [accounts[idx]] is a list lookup; an index returned by
    [findAccountIndex] is always within the list, so the [None] branches
    of the lookups below are never taken. *)

Inductive login_result :=
| LoginOk (idx : nat)
| AccountNotFound
| AccountLocked      (* the flag was already set on entry *)
| LockedOut          (* this call set the flag *)
| AwaitingPin.       (* input exhausted: the call is still reading PINs *)

Definition set_loginAttempts (v : Z) (a : Account) : Account :=
  mkAccount (accountNumber a) (pin a) (balance a) (name a) v (locked a).

Definition set_locked (v : Z) (a : Account) : Account :=
  mkAccount (accountNumber a) (pin a) (balance a) (name a) (loginAttempts a) v.

Definition set_balance (v : Q) (a : Account) : Account :=
  mkAccount (accountNumber a) (pin a) v (name a) (loginAttempts a) (locked a).

(** The [for (;;)] loop of [login] over the PINs typed at the prompt.
    The Boolean tells a successful login from a lock-out. *)
Fixpoint pin_loop (pins : list Z) (acc : Account) : option bool * Account :=
  match pins with
  | [] => (None, acc)
  | p :: rest =>
      if p =? pin acc then (Some true, set_loginAttempts 0 acc)
      else
        let acc1 := set_loginAttempts (Int.add (loginAttempts acc) 1) acc in
        let attemptsLeft := Int.sub 3 (loginAttempts acc1) in
        if attemptsLeft >? 0 then pin_loop rest acc1
        else (Some false, set_locked 1 acc1)
  end.

Definition login (accNum : Z) (pins : list Z) (accs : list Account)
    : login_result * list Account :=
  match findAccountIndex accNum accs with
  | None => (AccountNotFound, accs)
  | Some idx =>
      match accs !! idx with
      | None => (AccountNotFound, accs)
      | Some acc =>
          if negb (locked acc =? 0) then (AccountLocked, accs)
          else
            let (r, acc') := pin_loop pins acc in
            (match r with
             | Some true => LoginOk idx
             | Some false => LockedOut
             | None => AwaitingPin
             end, <[idx := acc']> accs)
      end
  end.

(** ** showBalance *)

Definition showBalance (acc : Account) (j : list Transaction)
    : list Transaction :=
  recordTransaction
    (mkTransaction (accountNumber acc) "Balance Inquiry" 0%Q (balance acc)) j.

(** ** withdrawCash *)

Inductive withdraw_outcome :=
| InvalidAmount_nonpositive     (* "Invalid amount. Must be > 0." *)
| InvalidAmount_not_multiple    (* "Amount must be a multiple of 100." *)
| InsufficientFunds             (* "Insufficient balance." *)
| InsufficientTotalCash         (* "ATM does not have enough cash." *)
| Infeasible                    (* "ATM cannot dispense the requested amount ..." *)
| Declined                      (* "Withdrawal cancelled." *)
| Committed (amount : Z) (plan : dstate).

(** What [withdrawCash] leaves behind: the account and the inventory it was
    given pointers to, and the journal. *)
Record wresult := mkW {
  w_outcome : withdraw_outcome;
  w_acc : Account;
  w_atm : ATM;
  w_journal : list Transaction
}.

(** [atmTotal], computed in [long]. *)
Definition atmTotal (a : ATM) : Z :=
  Int.ladd (Int.ladd (Int.ladd (Int.lmul (note2000 a) 2000)
                               (Int.lmul (note500 a) 500))
                     (Int.lmul (note200 a) 200))
           (Int.lmul (note100 a) 100).

(** [damount] is the number typed at the amount prompt, [confirm] the one
    typed at the confirmation prompt (read only if that prompt is reached),
    [garbage] the stale content of the local [possible]. *)
Definition withdrawCash (damount : Q) (confirm : Z) (garbage : Z)
    (acc : Account) (a : ATM) (j : list Transaction) : wresult :=
  if Qle_bool damount 0 then mkW InvalidAmount_nonpositive acc a j
  else if negb (Int.rem (Int.of_double damount) 100 =? 0) then
    mkW InvalidAmount_not_multiple acc a j
  else
    let amount := Int.of_double damount in
    if amount >? Int.of_double (Double.plus (balance acc) Double.c0001) then
      mkW InsufficientFunds acc a j
    else if amount >? atmTotal a then mkW InsufficientTotalCash acc a j
    else
      let d := calculateDenominations amount a (Indet garbage) in
      if cell_val (possible d) =? 0 then mkW Infeasible acc a j
      else if confirm =? 0 then mkW Declined acc a j
      else
        let acc' := set_balance (balance acc - inject_Z amount)%Q acc in
        let a' := mkATM (Int.sub (note2000 a) (n2000 d))
                        (Int.sub (note500 a) (n500 d))
                        (Int.sub (note200 a) (n200 d))
                        (Int.sub (note100 a) (n100 d)) in
        let t := mkTransaction (accountNumber acc') "Withdrawal"
                               (inject_Z amount) (balance acc') in
        mkW (Committed amount d) acc' a' (recordTransaction t j).

(** ** adminMenu *)

Definition ADMIN_PIN : Z := 999999.

Inductive admin_choice :=
| ViewInventory                     (* 1 *)
| RefillNotes (a b c d : Z)         (* 2, with the four numbers typed *)
| ViewAccounts                      (* 3 *)
| UnlockAccount (accn : Z)          (* 4 *)
| ExitAdmin                         (* 5 *)
| InvalidAdminChoice.

(** Choice 2. *)
Definition refill (a b c d : Z) (m : ATM) : ATM :=
  if (a <? 0) || (b <? 0) || (c <? 0) || (d <? 0) then m
  else mkATM (Int.add (note2000 m) a) (Int.add (note500 m) b)
             (Int.add (note200 m) c) (Int.add (note100 m) d).

(** Choice 4. *)
Definition unlock (accn : Z) (accs : list Account) : list Account :=
  match findAccountIndex accn accs with
  | None => accs
  | Some idx =>
      match accs !! idx with
      | None => accs
      | Some acc => <[idx := set_loginAttempts 0 (set_locked 0 acc)]> accs
      end
  end.

Definition admin_step (c : admin_choice) (s : System) : System :=
  match c with
  | RefillNotes a b c d => mkSystem (accounts s) (refill a b c d (atm s)) (journal s)
  | UnlockAccount accn => mkSystem (unlock accn (accounts s)) (atm s) (journal s)
  | _ => s
  end.

(** The [do ... while (choice != 5)] loop over the choices typed. *)
Fixpoint admin_loop (choices : list admin_choice) (s : System) : System :=
  match choices with
  | [] => s
  | ExitAdmin :: _ => s
  | c :: rest => admin_loop rest (admin_step c s)
  end.

Definition adminMenu (pin_typed : Z) (choices : list admin_choice) (s : System)
    : System :=
  if negb (pin_typed =? ADMIN_PIN) then s else admin_loop choices s.

(** ** main *)

Inductive user_choice :=
| BalanceInquiry                                        (* 1 *)
| CashWithdrawal (damount : Q) (confirm : Z) (garbage : Z)  (* 2 *)
| TransactionHistory                                    (* 3 *)
| Logout                                                (* 4 *)
| InvalidUserChoice.

Definition user_step (idx : nat) (c : user_choice) (s : System) : System :=
  match accounts s !! idx with
  | None => s
  | Some acc =>
      match c with
      | BalanceInquiry =>
          mkSystem (accounts s) (atm s) (showBalance acc (journal s))
      | CashWithdrawal damount confirm garbage =>
          let w := withdrawCash damount confirm garbage acc (atm s) (journal s) in
          mkSystem (<[idx := w_acc w]> (accounts s)) (w_atm w) (w_journal w)
      | _ => s
      end
  end.

(** The [do ... while (userChoice != 4)] loop of a logged-in session. *)
Fixpoint user_loop (idx : nat) (choices : list user_choice) (s : System)
    : System :=
  match choices with
  | [] => s
  | Logout :: _ => s
  | c :: rest => user_loop idx rest (user_step idx c s)
  end.

Inductive main_choice :=
| UserLogin (accNum : Z) (pins : list Z) (session : list user_choice)  (* 1 *)
| AdminMenu (pin_typed : Z) (choices : list admin_choice)              (* 2 *)
| ExitSystem                                                           (* 3 *)
| InvalidMainChoice.

Definition main_step (c : main_choice) (s : System) : System :=
  match c with
  | UserLogin accNum pins session =>
      let (r, accs) := login accNum pins (accounts s) in
      let s1 := mkSystem accs (atm s) (journal s) in
      match r with
      | LoginOk idx => user_loop idx session s1
      | _ => s1
      end
  | AdminMenu p choices => adminMenu p choices s
  | _ => s
  end.

(** The [do ... while (mainChoice != 3)] loop of [main]. *)
Fixpoint main_loop (script : list main_choice) (s : System) : System :=
  match script with
  | [] => s
  | ExitSystem :: _ => s
  | c :: rest => main_loop rest (main_step c s)
  end.

(** The inventory [loadATM] falls back to, and the accounts [main] creates
    when [accounts.txt] is empty. *)
Definition default_atm : ATM := mkATM 10 20 50 100.

Definition sample_accounts : list Account :=
  [ mkAccount 1001 1234 15000 "Zaid" 0 0;
    mkAccount 1002 2345 5000 "Anita" 0 0;
    mkAccount 1003 3456 20000 "Ravi" 0 0 ].

Definition initial_system : System := mkSystem sample_accounts default_atm [].

(** ** Properties of states and plans *)

(** An inventory as the data model has it: four non-negative [int]s. *)
Definition inventory_ok (a : ATM) : Prop :=
  (0 <= note2000 a <= Int.INT_MAX) /\ (0 <= note500 a <= Int.INT_MAX) /\
  (0 <= note200 a <= Int.INT_MAX) /\ (0 <= note100 a <= Int.INT_MAX).

(** Value of the notes of a plan. *)
Definition plan_value (s : dstate) : Z :=
  2000 * n2000 s + 500 * n500 s + 200 * n200 s + 100 * n100 s.

(** The caller's test [if (!possible)] does not fire. *)
Definition reports_possible (s : dstate) : Prop := cell_val (possible s) <> 0.

Definition plan_of (s : dstate) : Z * Z * Z * Z :=
  (n2000 s, n500 s, n200 s, n100 s).

Definition feasible_flag (s : dstate) : bool := negb (cell_val (possible s) =? 0).

(** The four blocks of the greedy pass on their own: the counts taken and
    what is left of the amount. *)
Definition greedy_pass (amount : Z) (a : ATM) : Z * Z * Z * Z * Z :=
  let '(u2000, r) := greedy_take 2000 (note2000 a) amount in
  let '(u500, r) := greedy_take 500 (note500 a) r in
  let '(u200, r) := greedy_take 200 (note200 a) r in
  let '(u100, r) := greedy_take 100 (note100 a) r in
  (u2000, u500, u200, u100, r).

(** ** The solver as the specification words it *)

Module Reference.

Definition denominations : list Z := [2000; 500; 200; 100].

Definition available (a : ATM) (d : Z) : Z :=
  if d =? 2000 then note2000 a
  else if d =? 500 then note500 a
  else if d =? 200 then note200 a
  else if d =? 100 then note100 a
  else 0.

(** Step 1: in descending order take [min (floor (remaining / d)) available]
    notes of each denomination.  Returns the counts and the remainder. *)
Fixpoint greedy (ds : list Z) (a : ATM) (remaining : Z) : list Z * Z :=
  match ds with
  | [] => ([], remaining)
  | d :: ds' =>
      let take := Z.min (remaining / d) (available a d) in
      let (rest, r) := greedy ds' a (remaining - take * d) in
      (take :: rest, r)
  end.

(** [g, g - 1, ..., 0] (empty when [g < 0]). *)
Definition down_from (g : Z) : list Z :=
  map Z.of_nat (rev (seq 0 (Z.to_nat (g + 1)))).

(** Step 3: the candidates in nested descending iteration order. *)
Definition candidates (g2000 g500 g200 : Z) : list (Z * Z * Z) :=
  flat_map (fun x =>
    flat_map (fun y =>
      map (fun z => (x, y, z)) (down_from g200)) (down_from g500))
    (down_from g2000).

Definition residual (amount : Z) (c : Z * Z * Z) : Z :=
  let '(x, y, z) := c in amount - (2000 * x + 500 * y + 200 * z).

(** Residual non-negative, divisible by the smallest denomination, and
    covered by the 100-notes available. *)
Definition accepts (amount : Z) (a : ATM) (c : Z * Z * Z) : bool :=
  (0 <=? residual amount c) && (residual amount c mod 100 =? 0)
  && (residual amount c / 100 <=? available a 100).

(** [solve]: the plan and whether it is feasible; an infeasible result
    carries the greedy figures. *)
Definition solve (amount : Z) (a : ATM) : Z * Z * Z * Z * bool :=
  match greedy denominations a amount with
  | ([g2000; g500; g200; g100], r) =>
      if r =? 0 then (g2000, g500, g200, g100, true)
      else
        match List.find (accepts amount a) (candidates g2000 g500 g200) with
        | Some (x, y, z) => (x, y, z, residual amount (x, y, z) / 100, true)
        | None => (g2000, g500, g200, g100, false)
        end
  | _ => (0, 0, 0, 0, false)
  end.

End Reference.


Definition nonneg (q : Q) : Prop := (0 <= q)%Q.





(** A refill that is refused, or whose four sums stay within [int]. *)
Definition refill_fits (a b c d : Z) (m : ATM) : Prop :=
  (a < 0 \/ b < 0 \/ c < 0 \/ d < 0) \/
  (note2000 m + a <= Int.INT_MAX /\ note500 m + b <= Int.INT_MAX /\
   note200 m + c <= Int.INT_MAX /\ note100 m + d <= Int.INT_MAX).

(** Every refill the admin loop carries out fits, each taken on the
    inventory it finds. *)
Fixpoint admin_fits (choices : list admin_choice) (m : ATM) : Prop :=
  match choices with
  | [] => True
  | ExitAdmin :: _ => True
  | RefillNotes a b c d :: rest =>
      refill_fits a b c d m /\ admin_fits rest (refill a b c d m)
  | _ :: rest => admin_fits rest m
  end.

Definition main_fits (c : main_choice) (s : System) : Prop :=
  match c with
  | AdminMenu p choices => admin_fits choices (atm s)
  | _ => True
  end.

(** The account after a lock-out, and after an administrative unlock. *)
Definition locked_out (acc : Account) : Account :=
  set_locked 1 (set_loginAttempts 3 acc).

Definition unlocked (acc : Account) : Account :=
  set_loginAttempts 0 (set_locked 0 acc).

(** [s'] differs from [s] at most in the flag [indet_read], which is never
    cleared. *)
Definition frame (s s' : dstate) : Prop :=
  n2000 s' = n2000 s /\ n500 s' = n500 s /\ n200 s' = n200 s /\
  n100 s' = n100 s /\ possible s' = possible s /\
  (indet_read s = true -> indet_read s' = true).

(** A plan the inventory can pay out. *)
Definition feasible_plan (amount : Z) (a : ATM) (x y z w : Z) : Prop :=
  0 <= x <= note2000 a /\ 0 <= y <= note500 a /\ 0 <= z <= note200 a /\
  0 <= w <= note100 a /\
  2000 * x + 500 * y + 200 * z + 100 * w = amount.

(** ** Notions for the whole machine *)

(** Sum of all balances. *)
Definition total_balance (accs : list Account) : Q :=
  foldr (fun acc q => (balance acc + q)%Q) 0%Q accs.

(** What the account holders own minus what the machine holds. *)
Definition holdings (s : System) : Q :=
  (total_balance (accounts s) - inject_Z (atmTotal (atm s)))%Q.

(** The two shapes [login] and the unlock leave an account in: open with
    fewer than three mismatches counted, or locked with exactly three. *)
Definition lock_consistent (acc : Account) : Prop :=
  (locked acc = 0 /\ 0 <= loginAttempts acc < 3) \/
  (locked acc = 1 /\ loginAttempts acc = 3).

(** The two kinds of journal line the program writes. *)
Definition journal_line_ok (t : Transaction) : Prop :=
  (t_type t = "Balance Inquiry"%string /\ t_amount t = 0%Q) \/
  (t_type t = "Withdrawal"%string /\
   exists amount : Z,
     0 <= amount /\ Int.rem amount 100 = 0 /\ t_amount t = inject_Z amount).

(** Two accounts that differ at most in the counter and the lock flag. *)
Definition same_holder (x y : Account) : Prop :=
  accountNumber x = accountNumber y /\ pin x = pin y /\
  balance x = balance y /\ name x = name y.

(** ** Text: the inventory file and the terminal *)

(** Files and the terminal are sequences of characters.  The library
    calls are written out as the C standard describes them; where the
    standard leaves the result open (a numeral too large for the type
    read) the model follows glibc on LP64: [strtol] saturates at the ends
    of [long], and the value is then cut to the width of the variable
    assigned. *)
Module Text.

Definition nl : ascii := "010"%char.
Definition tab : ascii := "009"%char.
Definition nul : ascii := "000"%char.

Definition code (c : ascii) : Z := Z.of_nat (nat_of_ascii c).

(** [isspace] in the C locale: space, \t, \n, \v, \f, \r. *)
Definition is_space (c : ascii) : bool :=
  (code c =? 32) || ((9 <=? code c) && (code c <=? 13)).

Definition digit_of (c : ascii) : option Z :=
  if (48 <=? code c) && (code c <=? 57) then Some (code c - 48) else None.

Definition digit_char (d : Z) : ascii := ascii_of_nat (Z.to_nat (48 + d)).

(** The decimal digits of [n >= 0] written in front of [acc], most
    significant first, without leading zeros; [fuel] bounds the number of
    digits (20 are enough for 64 bits). *)
Fixpoint digits (fuel : nat) (n : Z) (acc : string) : string :=
  match fuel with
  | O => acc
  | S fuel' =>
      let acc' := String (digit_char (n mod 10)) acc in
      if n <? 10 then acc' else digits fuel' (n / 10) acc'
  end.

(** What [%d] prints for an [int] (and [%ld] for a [long]). *)
Definition print_int (z : Z) : string :=
  if z <? 0 then String "-"%char (digits 20 (- z) "") else digits 20 z "".

Fixpoint skip_ws (s : string) : string :=
  match s with
  | String c r => if is_space c then skip_ws r else s
  | EmptyString => EmptyString
  end.

(** A run of digits read into [v]; stops in front of the first character
    that is not a digit. *)
Fixpoint scan_digits (v : Z) (s : string) : Z * string :=
  match s with
  | String c r =>
      match digit_of c with
      | Some d => scan_digits (10 * v + d) r
      | None => (v, s)
      end
  | EmptyString => (v, s)
  end.

(** The numeral a [%d] or [%ld] directive matches: white space is
    skipped, then an optional sign and at least one digit are read.
    [None] is a matching failure. *)
Definition scan_number (s : string) : option (Z * string) :=
  let s := skip_ws s in
  let '(negative, s) :=
    match s with
    | String c r =>
        if Ascii.eqb c "-" then (true, r)
        else if Ascii.eqb c "+" then (false, r)
        else (false, s)
    | EmptyString => (false, s)
    end in
  match s with
  | String c r =>
      match digit_of c with
      | Some d =>
          let (v, rest) := scan_digits d r in
          Some (if negative then - v else v, rest)
      | None => None
      end
  | EmptyString => None
  end.

(** [strtol]: the value, saturated at [LONG_MIN] and [LONG_MAX]. *)
Definition to_long (v : Z) : Z := Z.max (- 2 ^ 63) (Z.min v (2 ^ 63 - 1)).

(** A [long] stored into an [int]. *)
Definition long_to_int (v : Z) : Z := Int.wrap v.

(** One [%d] of [fscanf]. *)
Definition scan_int (s : string) : option (Z * string) :=
  match scan_number s with
  | Some (v, rest) => Some (long_to_int (to_long v), rest)
  | None => None
  end.

(** [fprintf(fp, "%d %d %d %d\n", ...)] of [saveATM]: the content of
    [atm.txt] after a successful save. *)
Definition saveATM (a : ATM) : string :=
  String.append (print_int (note2000 a))
    (String " "%char (String.append (print_int (note500 a))
      (String " "%char (String.append (print_int (note200 a))
        (String " "%char (String.append (print_int (note100 a))
          (String nl EmptyString))))))).

(** [loadATM]: [None] is a file that cannot be opened.  Fewer than four
    conversions leave the default inventory, whatever was read before the
    failure. *)
Definition loadATM (file : option string) : ATM :=
  match file with
  | None => default_atm
  | Some txt =>
      match scan_int txt with
      | Some (a, r1) =>
          match scan_int r1 with
          | Some (b, r2) =>
              match scan_int r2 with
              | Some (c, r3) =>
                  match scan_int r3 with
                  | Some (d, _) => mkATM a b c d
                  | None => default_atm
                  end
              | None => default_atm
              end
          | None => default_atm
          end
      | None => default_atm
      end
  end.

(** [fgets(line, 256, stdin)] on a stream that is not at its end: up to
    [room] characters, stopping after a newline.  Returns the line and what
    is left of the stream. *)
Fixpoint take_line (room : nat) (s : string) : string * string :=
  match room, s with
  | S room', String c r =>
      if Ascii.eqb c nl then (String c EmptyString, r)
      else let (l, rest) := take_line room' r in (String c l, rest)
  | _, _ => (EmptyString, s)
  end.

Definition fgets (stdin : string) : option (string * string) :=
  match stdin with
  | EmptyString => None
  | _ => Some (take_line 255 stdin)
  end.

(** The buffer as the C string functions see it: up to the first NUL. *)
Fixpoint c_str (s : string) : string :=
  match s with
  | String c r => if Ascii.eqb c nul then EmptyString else String c (c_str r)
  | EmptyString => EmptyString
  end.

(** [while ( *p && ( *p==' ' || *p=='\t')) p++;] *)
Fixpoint skip_blanks (s : string) : string :=
  match s with
  | String c r =>
      if Ascii.eqb c " " || Ascii.eqb c tab then skip_blanks r else s
  | EmptyString => EmptyString
  end.

(** [if ( *p=='\n' || *p=='\0')]: the "Empty input" case. *)
Definition is_empty_line (line : string) : bool :=
  match skip_blanks line with
  | String c _ => Ascii.eqb c nl
  | EmptyString => true
  end.

(** [sscanf(line, "%ld %c", &val, &extra) == 1]: a numeral, then nothing
    but white space.  Returns [val]. *)
Definition lone_integer (line : string) : option Z :=
  match scan_number line with
  | Some (v, rest) =>
      match skip_ws rest with
      | EmptyString => Some (to_long v)
      | String _ _ => None
      end
  | None => None
  end.

(** [safeScanInt]: lines are read until one holds a lone integer, which
    is returned as an [int] together with the rest of the stream.  At the
    end of the input [fgets] fails on every turn and the [while (1)] loop
    never ends: that is the result [None].  Every turn consumes at least
    one character, so [fuel] beyond the length of the input is never used
    up. *)
Fixpoint safeScanInt_loop (fuel : nat) (stdin : string) : option (Z * string) :=
  match fuel with
  | O => None
  | S fuel' =>
      match fgets stdin with
      | None => None
      | Some (buf, rest) =>
          let line := c_str buf in
          if is_empty_line line then safeScanInt_loop fuel' rest
          else
            match lone_integer line with
            | Some val => Some (long_to_int val, rest)
            | None => safeScanInt_loop fuel' rest
            end
      end
  end.

Definition safeScanInt (stdin : string) : option (Z * string) :=
  safeScanInt_loop (S (String.length stdin)) stdin.

(** A line as typed: no newline and no NUL inside, and short enough for
    the buffer together with its newline. *)
Fixpoint plain (s : string) : bool :=
  match s with
  | String c r => negb (Ascii.eqb c nl) && negb (Ascii.eqb c nul) && plain r
  | EmptyString => true
  end.

Definition typed_line (s : string) : Prop :=
  plain s = true /\ (String.length s < 255)%nat.

(** Only spaces and tabs. *)
Fixpoint blank (s : string) : bool :=
  match s with
  | String c r => (Ascii.eqb c " " || Ascii.eqb c tab) && blank r
  | EmptyString => true
  end.

(** Only white space (blanks, tabs, line ends and the like). *)
Fixpoint white (s : string) : bool :=
  match s with
  | String c r => is_space c && white r
  | EmptyString => true
  end.

(** A string that does not begin with a digit. *)
Definition no_digit_ahead (s : string) : Prop :=
  match s with
  | String c _ => digit_of c = None
  | EmptyString => True
  end.

End Text.

(** * Facts *)

(** ** Machine integers *)

Module IntFacts.

Lemma wrap_id z : Int.in_range z -> Int.wrap z = z.
Proof.
  unfold Int.in_range, Int.INT_MIN, Int.INT_MAX, Int.wrap. intros H.
  rewrite Z.mod_small; lia.
Qed.

Lemma wrap_in_range z : Int.in_range (Int.wrap z).
Proof.
  unfold Int.in_range, Int.INT_MIN, Int.INT_MAX, Int.wrap.
  pose proof (Z.mod_pos_bound (z + 2 ^ 31) (2 ^ 32)). lia.
Qed.

Lemma wrap64_id z : - 2 ^ 63 <= z <= 2 ^ 63 - 1 -> Int.wrap64 z = z.
Proof. unfold Int.wrap64. intros H. rewrite Z.mod_small; lia. Qed.

Lemma sub_exact a b : Int.in_range (a - b) -> Int.sub a b = a - b.
Proof. apply wrap_id. Qed.

Lemma add_exact a b : Int.in_range (a + b) -> Int.add a b = a + b.
Proof. apply wrap_id. Qed.

Lemma mul_exact a b : Int.in_range (a * b) -> Int.mul a b = a * b.
Proof. apply wrap_id. Qed.

(** Truncating division by a positive constant. *)
Lemma quot_bounds_nonneg a d :
  0 < d -> 0 <= a -> 0 <= a ÷ d /\ (a ÷ d) * d <= a < (a ÷ d) * d + d.
Proof.
  intros Hd Ha.
  pose proof (Z.quot_rem' a d) as E.
  pose proof (Z.rem_bound_pos a d Ha Hd) as B.
  pose proof (Z.quot_pos a d Ha Hd). lia.
Qed.

Lemma quot_bounds_nonpos a d :
  0 < d -> a <= 0 -> a ÷ d <= 0 /\ (a ÷ d) * d - d < a <= (a ÷ d) * d.
Proof.
  intros Hd Ha.
  destruct (quot_bounds_nonneg (- a) d Hd) as [H1 H2]; [lia|].
  rewrite Z.quot_opp_l in H1, H2 by lia. lia.
Qed.

End IntFacts.

(** ** Rounding to binary64 *)

Module DoubleFacts.
Import Double.

Lemma nearest_even_between num den :
  0 < den -> num / den <= nearest_even num den <= num / den + 1.
Proof.
  intros Hd. unfold nearest_even. cbv zeta.
  destruct (2 * (num mod den) <? den); [lia|].
  destruct (den <? 2 * (num mod den)); [lia|].
  destruct (Z.even (num / den)); lia.
Qed.

Lemma nearest_even_lower num den a :
  0 < den -> a * den <= num -> a <= nearest_even num den.
Proof.
  intros Hd Ha. pose proof (nearest_even_between num den Hd) as [H _].
  assert (a <= num / den) by (apply Z.div_le_lower_bound; lia). lia.
Qed.




Lemma round_pos_nonneg n d : 0 < n -> (0 <= round_pos n d)%Q.
Proof.
  intros Hn. unfold round_pos. cbv zeta. unfold Qle. cbn [Qnum Qden].
  rewrite Z.mul_1_r.
  set (e := ulp_exp n d).
  assert (0 < 2 ^ Z.max 0 e) by (apply Z.pow_pos_nonneg; lia).
  assert (0 < 2 ^ Z.max 0 (- e)) by (apply Z.pow_pos_nonneg; lia).
  assert (0 <= nearest_even (n * 2 ^ Z.max 0 (- e)) (Z.pos d * 2 ^ Z.max 0 e)).
  { apply nearest_even_lower; [lia|]. nia. }
  nia.
Qed.


Lemma round_nonneg x : (0 <= x)%Q -> (0 <= round x)%Q.
Proof.
  destruct x as [n d]. unfold Qle, round. cbn [Qnum Qden]. intros H.
  destruct n as [|p|p]; [discriminate 1 | | lia].
  apply (round_pos_nonneg (Zpos p) d). lia.
Qed.


Lemma c0001_bounds : (0 < c0001)%Q /\ (c0001 <= 1 # 256)%Q.
Proof. split; vm_compute; [reflexivity | discriminate]. Qed.



End DoubleFacts.

(** ** The greedy pass *)

Lemma greedy_take_le d avail R : fst (greedy_take d avail R) <= avail.
Proof.
  unfold greedy_take; simpl. destruct (Z.gtb_spec (Int.div R d) avail); lia.
Qed.

(** One block, when nothing overflows: the count is the smaller of the
    truncated quotient and the stock, and the remainder moves toward 0. *)
Lemma greedy_take_exact d avail R :
  0 < d <= 2000 -> Int.in_range R -> 0 <= avail ->
  exists use R',
    greedy_take d avail R = (use, R') /\ R' = R - use * d /\ use <= avail /\
    use = Z.min (R ÷ d) avail /\
    (0 <= R -> 0 <= use /\ 0 <= R' <= R) /\
    (R <= 0 -> use <= 0 /\ R <= R' <= 0).
Proof.
  intros Hd HR Hav. unfold greedy_take, Int.div.
  set (use := if R ÷ d >? avail then avail else R ÷ d).
  assert (Huse : use = Z.min (R ÷ d) avail).
  { subst use. destruct (Z.gtb_spec (R ÷ d) avail); lia. }
  assert (Hcases : (0 <= R -> 0 <= use /\ 0 <= R - use * d <= R) /\
                   (R <= 0 -> use <= 0 /\ R <= R - use * d <= 0)).
  { split; intros HR0.
    - destruct (IntFacts.quot_bounds_nonneg R d) as [H1 H2]; [lia..|]. nia.
    - destruct (IntFacts.quot_bounds_nonpos R d) as [H1 H2]; [lia..|].
      assert (use = R ÷ d) as -> by lia. nia. }
  unfold Int.in_range, Int.INT_MIN, Int.INT_MAX in HR.
  exists use, (R - use * d). split.
  - f_equal. rewrite IntFacts.mul_exact, IntFacts.sub_exact; auto;
      unfold Int.in_range, Int.INT_MIN, Int.INT_MAX;
      destruct (Z_lt_le_dec R 0); lia.
  - repeat split; try tauto; try lia; apply Hcases; lia.
Qed.

Lemma calculateDenominations_eq amount a p0 :
  calculateDenominations amount a p0 =
  let '(u2000, u500, u200, u100, r) := greedy_pass amount a in
  if r =? 0 then mkD u2000 u500 u200 u100 (Init 1) false
  else
    match
      for_down (trips u2000) (fun r2000 =>
        for_down (trips u500) (fun r500 =>
          for_down (trips u200) (fun r200 =>
            try_combination amount a r2000 r500 r200)))
        (mkD u2000 u500 u200 u100 p0 false)
    with
    | Returned s' => s'
    | Running s' => mkD u2000 u500 u200 u100 (Init 0) (indet_read s')
    end.
Proof.
  unfold calculateDenominations, greedy_pass.
  repeat (destruct (greedy_take _ _ _)). reflexivity.
Qed.

Lemma greedy_pass_le amount a u2000 u500 u200 u100 r :
  greedy_pass amount a = (u2000, u500, u200, u100, r) ->
  u2000 <= note2000 a /\ u500 <= note500 a /\
  u200 <= note200 a /\ u100 <= note100 a.
Proof.
  unfold greedy_pass.
  destruct (greedy_take 2000 _ amount) as [x1 r1] eqn:E1.
  destruct (greedy_take 500 _ r1) as [x2 r2] eqn:E2.
  destruct (greedy_take 200 _ r2) as [x3 r3] eqn:E3.
  destruct (greedy_take 100 _ r3) as [x4 r4] eqn:E4.
  intros [= <- <- <- <- <-].
  pose proof (greedy_take_le 2000 (note2000 a) amount) as H1.
  pose proof (greedy_take_le 500 (note500 a) r1) as H2.
  pose proof (greedy_take_le 200 (note200 a) r2) as H3.
  pose proof (greedy_take_le 100 (note100 a) r3) as H4.
  rewrite E1 in H1. rewrite E2 in H2. rewrite E3 in H3. rewrite E4 in H4.
  simpl in *. lia.
Qed.

(** The whole pass on a valid inventory: no operation overflows. *)
Lemma greedy_pass_exact amount a :
  Int.in_range amount -> inventory_ok a ->
  exists u2000 u500 u200 u100 r,
    greedy_pass amount a = (u2000, u500, u200, u100, r) /\
    r = amount - (2000 * u2000 + 500 * u500 + 200 * u200 + 100 * u100) /\
    u100 = Z.min ((amount - (2000 * u2000 + 500 * u500 + 200 * u200)) ÷ 100)
                 (note100 a) /\
    (0 <= amount ->
       0 <= u2000 /\ 0 <= u500 /\ 0 <= u200 /\ 0 <= u100 /\ 0 <= r /\
       0 <= amount - (2000 * u2000 + 500 * u500 + 200 * u200)) /\
    (amount < 0 ->
       u2000 <= 0 /\ u500 <= 0 /\ u200 <= 0 /\ u100 <= 0 /\ r <= 0 /\
       amount <= amount - (2000 * u2000 + 500 * u500 + 200 * u200) <= 0).
Proof.
  intros Hamt (H2000 & H500 & H200 & H100).
  assert (Hr : forall x y, Int.in_range x -> (0 <= x -> 0 <= y <= x) ->
                 (x < 0 -> x <= y <= 0) -> Int.in_range y).
  { unfold Int.in_range, Int.INT_MIN, Int.INT_MAX. intros x y ? ? ?.
    destruct (Z_lt_le_dec x 0); lia. }
  assert (Hr' : forall x y, Int.in_range x -> (0 <= x -> 0 <= y <= x) ->
                 (x <= 0 -> x <= y <= 0) -> Int.in_range y).
  { intros x y ? ? ?. apply (Hr x); auto. intros; apply H1; lia. }
  clear Hr.
  unfold greedy_pass.
  destruct (greedy_take_exact 2000 (note2000 a) amount)
    as (x1 & r1 & -> & E1 & L1 & M1 & P1 & N1); [lia | auto | lia |].
  assert (Int.in_range r1) by (apply (Hr' amount); tauto).
  destruct (greedy_take_exact 500 (note500 a) r1)
    as (x2 & r2 & -> & E2 & L2 & M2 & P2 & N2); [lia | auto | lia |].
  assert (Int.in_range r2) by (apply (Hr' r1); tauto).
  destruct (greedy_take_exact 200 (note200 a) r2)
    as (x3 & r3 & -> & E3 & L3 & M3 & P3 & N3); [lia | auto | lia |].
  assert (Int.in_range r3) by (apply (Hr' r2); tauto).
  destruct (greedy_take_exact 100 (note100 a) r3)
    as (x4 & r4 & -> & E4 & L4 & M4 & P4 & N4); [lia | auto | lia |].
  exists x1, x2, x3, x4, r4.
  assert (E : r3 = amount - (2000 * x1 + 500 * x2 + 200 * x3)) by lia.
  split; [reflexivity|]. split; [lia|]. split; [rewrite <- E; exact M4|].
  split; intros Hsgn.
  - destruct (P1 Hsgn) as (? & ? & ?). destruct P2 as (? & ? & ?); [lia|].
    destruct P3 as (? & ? & ?); [lia|]. destruct P4 as (? & ? & ?); [lia|].
    lia.
  - destruct N1 as (? & ? & ?); [lia|]. destruct N2 as (? & ? & ?); [lia|].
    destruct N3 as (? & ? & ?); [lia|]. destruct N4 as (? & ? & ?); [lia|].
    lia.
Qed.

(** The four blocks on a non-negative amount: each takes the smaller of the
    quotient of what is left and the stock. *)
Lemma greedy_pass_steps amount a :
  0 <= amount <= Int.INT_MAX -> inventory_ok a ->
  exists u2000 u500 u200 u100 r1 r2 r3 r,
    greedy_pass amount a = (u2000, u500, u200, u100, r) /\
    u2000 = Z.min (amount ÷ 2000) (note2000 a) /\ r1 = amount - u2000 * 2000 /\
    u500 = Z.min (r1 ÷ 500) (note500 a) /\ r2 = r1 - u500 * 500 /\
    u200 = Z.min (r2 ÷ 200) (note200 a) /\ r3 = r2 - u200 * 200 /\
    u100 = Z.min (r3 ÷ 100) (note100 a) /\ r = r3 - u100 * 100 /\
    0 <= r1 /\ 0 <= r2 /\ 0 <= r3.
Proof.
  intros Hamt (H2000 & H500 & H200 & H100).
  assert (Hr : forall x y, 0 <= x <= Int.INT_MAX -> 0 <= y <= x ->
                 Int.in_range y).
  { unfold Int.in_range, Int.INT_MIN, Int.INT_MAX. intros; lia. }
  unfold greedy_pass.
  destruct (greedy_take_exact 2000 (note2000 a) amount)
    as (x1 & r1 & -> & E1 & _ & M1 & P1 & _);
    [lia | apply (Hr amount); lia | lia |].
  destruct P1 as (_ & B1); [lia|].
  destruct (greedy_take_exact 500 (note500 a) r1)
    as (x2 & r2 & -> & E2 & _ & M2 & P2 & _);
    [lia | apply (Hr amount); lia | lia |].
  destruct P2 as (_ & B2); [lia|].
  destruct (greedy_take_exact 200 (note200 a) r2)
    as (x3 & r3 & -> & E3 & _ & M3 & P3 & _);
    [lia | apply (Hr amount); lia | lia |].
  destruct P3 as (_ & B3); [lia|].
  destruct (greedy_take_exact 100 (note100 a) r3)
    as (x4 & r4 & -> & E4 & _ & M4 & _ & _);
    [lia | apply (Hr amount); lia | lia |].
  exists x1, x2, x3, x4, r1, r2, r3, r4.
  repeat split; auto; lia.
Qed.

(** ** The counting loops *)

Lemma frame_refl s : frame s s.
Proof. unfold frame; repeat split; auto. Qed.

Lemma frame_trans s1 s2 s3 : frame s1 s2 -> frame s2 s3 -> frame s1 s3.
Proof. unfold frame; intuition congruence. Qed.

Lemma read_possible_frame s : frame s (snd (read_possible s)).
Proof.
  unfold read_possible, frame.
  destruct (possible s) eqn:E; simpl; rewrite ?E; repeat split; auto.
Qed.

Lemma read_possible_val s : fst (read_possible s) = cell_val (possible s).
Proof. unfold read_possible. destruct (possible s); reflexivity. Qed.

Lemma read_possible_indet s g :
  possible s = Indet g -> indet_read (snd (read_possible s)) = true.
Proof. unfold read_possible. intros ->. reflexivity. Qed.

(** A [return] inside a loop comes from its body, at a counter value
    between 0 and the start. *)
Lemma for_down_returned (P : dstate -> Prop) k body s s' :
  (forall r s1 s2, 0 <= r < Z.of_nat k -> body r s1 = Returned s2 -> P s2) ->
  for_down k body s = Returned s' -> P s'.
Proof.
  revert s. induction k as [|k IH]; intros s Hbody; simpl; [discriminate|].
  destruct (read_possible s) as [p s1].
  destruct (negb (p =? 0)); [discriminate|].
  destruct (body (Z.of_nat k) s1) as [s2|s2] eqn:Eb.
  - apply IH. intros r t1 t2 Hr. apply Hbody. lia.
  - intros [= <-]. apply (Hbody (Z.of_nat k) s1). lia. exact Eb.
Qed.

(** A loop whose body never returns and only touches the flag falls
    through, having touched only the flag. *)
Lemma for_down_running k body s :
  (forall r s1, 0 <= r < Z.of_nat k ->
     exists s2, body r s1 = Running s2 /\ frame s1 s2) ->
  exists s', for_down k body s = Running s' /\ frame s s'.
Proof.
  revert s. induction k as [|k IH]; intros s Hbody; simpl.
  - exists s. split; [reflexivity | apply frame_refl].
  - pose proof (read_possible_frame s) as F1.
    destruct (read_possible s) as [p s1]. simpl in F1.
    destruct (negb (p =? 0)); [eauto|].
    destruct (Hbody (Z.of_nat k) s1) as (s2 & -> & F2); [lia|].
    destruct (IH s2) as (s3 & -> & F3).
    { intros r t1 Hr. apply Hbody. lia. }
    exists s3. split; [reflexivity|]. eauto using frame_trans.
Qed.

(** The first test of a loop that is entered reads [*possible]. *)
Lemma for_down_reads k body s g :
  (0 < k)%nat -> possible s = Indet g ->
  (forall r s1, 0 <= r < Z.of_nat k ->
     exists s2, body r s1 = Running s2 /\ frame s1 s2) ->
  exists s', for_down k body s = Running s' /\ indet_read s' = true.
Proof.
  intros Hk Hp Hbody. destruct k as [|k]; [lia|]. simpl.
  pose proof (read_possible_indet s g Hp) as R1.
  destruct (read_possible s) as [p s1]. simpl in R1.
  destruct (negb (p =? 0)); [eauto|].
  destruct (Hbody (Z.of_nat k) s1) as (s2 & -> & F2); [lia|].
  destruct (for_down_running k body s2) as (s3 & -> & F3).
  { intros r t1 Hr. apply Hbody. lia. }
  exists s3. split; [reflexivity|].
  apply F3, F2, R1.
Qed.

(** ** The backtracking search *)

Lemma trips_bound r start : 0 <= r < Z.of_nat (trips start) -> 0 <= r <= start.
Proof. unfold trips. lia. Qed.

Lemma try_combination_returned amount a x y z s s' :
  try_combination amount a x y z s = Returned s' ->
  n2000 s' = x /\ n500 s' = y /\ n200 s' = z /\ n100 s' <= note100 a /\
  possible s' = Init 1.
Proof.
  unfold try_combination.
  destruct (_ <? 0); [discriminate|].
  destruct (negb _); [discriminate|].
  destruct (Z.leb_spec (Int.div (Int.sub amount
     (Int.add (Int.add (Int.mul x 2000) (Int.mul y 500)) (Int.mul z 200))) 100)
     (note100 a)); [|discriminate].
  intros [= <-]. simpl. auto.
Qed.

(** Inside the window the residual is computed without overflow. *)
Lemma residual_exact amount x y z :
  Int.in_range amount ->
  0 <= x -> 0 <= y -> 0 <= z ->
  (0 <= amount -> 2000 * x + 500 * y + 200 * z <= amount) ->
  (amount < 0 -> x = 0 /\ y = 0 /\ z = 0) ->
  Int.sub amount (Int.add (Int.add (Int.mul x 2000) (Int.mul y 500))
                          (Int.mul z 200))
  = amount - (2000 * x + 500 * y + 200 * z).
Proof.
  unfold Int.in_range, Int.INT_MIN, Int.INT_MAX.
  intros Ha Hx Hy Hz Hpos Hneg.
  assert (B : 0 <= 2000 * x + 500 * y + 200 * z <= 2 ^ 31 - 1).
  { destruct (Z_lt_le_dec amount 0) as [N|N].
    - destruct (Hneg N) as (-> & -> & ->). lia.
    - specialize (Hpos N). lia. }
  assert (B' : 2000 * x + 500 * y + 200 * z <= amount \/ amount < 0 /\
               2000 * x + 500 * y + 200 * z = 0).
  { destruct (Z_lt_le_dec amount 0) as [N|N]; [right|left; auto].
    destruct (Hneg N) as (-> & -> & ->). lia. }
  rewrite !IntFacts.mul_exact,
    (IntFacts.add_exact (x * 2000) (y * 500)),
    (IntFacts.add_exact (x * 2000 + y * 500) (z * 200)),
    IntFacts.sub_exact;
    unfold Int.in_range, Int.INT_MIN, Int.INT_MAX; lia.
Qed.

(** When the greedy pass leaves a remainder, no combination of the window
    is accepted: giving back large notes only increases what the 100-notes
    would have to cover. *)
Lemma window_rejected amount a u2000 u500 u200 u100 r x y z s :
  Int.in_range amount -> inventory_ok a ->
  greedy_pass amount a = (u2000, u500, u200, u100, r) -> r <> 0 ->
  0 <= x <= u2000 -> 0 <= y <= u500 -> 0 <= z <= u200 ->
  try_combination amount a x y z s = Running s.
Proof.
  intros Ha Hinv Hg Hr Hx Hy Hz.
  destruct (greedy_pass_exact amount a Ha Hinv)
    as (v1 & v2 & v3 & v4 & r' & Hg' & Er & E100 & Hpos & Hneg).
  rewrite Hg in Hg'. injection Hg' as <- <- <- <- <-.
  unfold try_combination.
  assert (Hw1 : 0 <= amount -> 2000 * x + 500 * y + 200 * z <= amount).
  { intros Hs. destruct (Hpos Hs) as (? & ? & ? & ? & ? & ?). lia. }
  assert (Hw2 : amount < 0 -> x = 0 /\ y = 0 /\ z = 0).
  { intros Hs. destruct (Hneg Hs) as (? & ? & ? & ? & ? & ?). lia. }
  rewrite residual_exact by (auto; lia).
  set (rem := amount - (2000 * x + 500 * y + 200 * z)).
  destruct (Z.ltb_spec rem 0) as [|Hrem]; [reflexivity|].
  unfold Int.rem, Int.div.
  destruct (Z.eqb_spec (Z.rem rem 100) 0) as [Hdiv|]; [simpl|reflexivity].
  destruct (Z.leb_spec (rem ÷ 100) (note100 a)) as [Hfit|]; [exfalso|reflexivity].
  assert (0 <= amount) as Hamt by (subst rem; lia).
  destruct (Hpos Hamt) as (? & ? & ? & ? & ? & HR3).
  pose proof (Z.quot_rem' rem 100) as Eq. rewrite Hdiv in Eq.
  set (k := 20 * (u2000 - x) + 5 * (u500 - y) + 2 * (u200 - z)).
  assert (E3 : amount - (2000 * u2000 + 500 * u500 + 200 * u200)
               = (rem ÷ 100 - k) * 100) by (subst rem k; lia).
  rewrite E3, Z.quot_mul in E100 by lia.
  assert (0 <= k) by (subst k; lia).
  lia.
Qed.

Lemma search_runs_out amount a u2000 u500 u200 u100 r s :
  Int.in_range amount -> inventory_ok a ->
  greedy_pass amount a = (u2000, u500, u200, u100, r) -> r <> 0 ->
  exists s',
    for_down (trips u2000) (fun r2000 =>
      for_down (trips u500) (fun r500 =>
        for_down (trips u200) (fun r200 =>
          try_combination amount a r2000 r500 r200))) s = Running s'
    /\ frame s s'.
Proof.
  intros Ha Hinv Hg Hr.
  apply for_down_running. intros x s1 Hx. apply trips_bound in Hx.
  apply for_down_running. intros y s2 Hy. apply trips_bound in Hy.
  apply for_down_running. intros z s3 Hz. apply trips_bound in Hz.
  exists s3. split; [|apply frame_refl].
  eapply window_rejected; eauto.
Qed.

(** On a valid inventory the result is decided by the greedy pass alone,
    whatever the flag held on entry. *)
Lemma calculateDenominations_greedy amount a p0 :
  Int.in_range amount -> inventory_ok a ->
  exists u2000 u500 u200 u100 r,
    greedy_pass amount a = (u2000, u500, u200, u100, r) /\
    n2000 (calculateDenominations amount a p0) = u2000 /\
    n500 (calculateDenominations amount a p0) = u500 /\
    n200 (calculateDenominations amount a p0) = u200 /\
    n100 (calculateDenominations amount a p0) = u100 /\
    possible (calculateDenominations amount a p0)
      = Init (if r =? 0 then 1 else 0).
Proof.
  intros Ha Hinv. rewrite calculateDenominations_eq.
  destruct (greedy_pass amount a) as [[[[u2000 u500] u200] u100] r] eqn:Hg.
  exists u2000, u500, u200, u100, r. split; [reflexivity|].
  destruct (Z.eqb_spec r 0) as [|Hr]; [repeat split; reflexivity|].
  destruct (search_runs_out amount a u2000 u500 u200 u100 r
              (mkD u2000 u500 u200 u100 p0 false) Ha Hinv Hg Hr)
    as (s' & -> & _).
  repeat split; reflexivity.
Qed.

(** ** The plan returned by [calculateDenominations] *)

(** C1.  For every [int] amount and every inventory of non-negative
    counts, whatever [*possible] held on entry: if
    [calculateDenominations] reports the withdrawal possible, the notes of
    the plan add up to the amount exactly,
    [2000*n2000 + 500*n500 + 200*n200 + 100*n100 = amount]. *)
Theorem plan_sums_to_amount amount a p0 :
  Int.in_range amount -> inventory_ok a ->
  reports_possible (calculateDenominations amount a p0) ->
  plan_value (calculateDenominations amount a p0) = amount.
Proof.
  intros Ha Hinv Hp.
  destruct (calculateDenominations_greedy amount a p0 Ha Hinv)
    as (u2000 & u500 & u200 & u100 & r & Hg & E1 & E2 & E3 & E4 & Hposs).
  destruct (greedy_pass_exact amount a Ha Hinv)
    as (v1 & v2 & v3 & v4 & r' & Hg' & Er & _).
  rewrite Hg in Hg'. injection Hg' as <- <- <- <- <-.
  unfold reports_possible in Hp. rewrite Hposs in Hp.
  destruct (Z.eqb_spec r 0) as [Hr|]; [|simpl in Hp; lia].
  unfold plan_value. rewrite E1, E2, E3, E4. lia.
Qed.

Lemma plan_sums_to_amount_witness :
  Int.in_range 2300 /\ inventory_ok default_atm /\
  plan_value (calculateDenominations 2300 default_atm (Indet 7)) = 2300.
Proof.
  assert (H1 : Int.in_range 2300) by (unfold Int.in_range, Int.INT_MIN, Int.INT_MAX; lia).
  assert (H2 : inventory_ok default_atm)
    by (unfold inventory_ok, Int.INT_MAX; simpl; lia).
  split; [exact H1|]. split; [exact H2|].
  apply (plan_sums_to_amount 2300 default_atm (Indet 7) H1 H2).
  vm_compute. discriminate.
Defined.

(** A plan returned from inside the loops: counters never exceed their
    starting values, and [need100] has been tested against the stock. *)
Lemma search_returned_within amount a u2000 u500 u200 s s' :
  for_down (trips u2000) (fun r2000 =>
    for_down (trips u500) (fun r500 =>
      for_down (trips u200) (fun r200 =>
        try_combination amount a r2000 r500 r200))) s = Returned s' ->
  0 <= n2000 s' <= u2000 /\ 0 <= n500 s' <= u500 /\ 0 <= n200 s' <= u200 /\
  n100 s' <= note100 a /\ possible s' = Init 1.
Proof.
  set (P := fun t => 0 <= n2000 t <= u2000 /\ 0 <= n500 t <= u500 /\
                     0 <= n200 t <= u200 /\ n100 t <= note100 a /\
                     possible t = Init 1).
  change (for_down (trips u2000) (fun r2000 =>
    for_down (trips u500) (fun r500 =>
      for_down (trips u200) (fun r200 =>
        try_combination amount a r2000 r500 r200))) s = Returned s' -> P s').
  apply (for_down_returned P). intros x s1 s2 Hx. apply trips_bound in Hx.
  apply (for_down_returned P). intros y t1 t2 Hy. apply trips_bound in Hy.
  apply (for_down_returned P). intros z v1 v2 Hz. apply trips_bound in Hz.
  intros Hret. apply try_combination_returned in Hret.
  destruct Hret as (E1 & E2 & E3 & ? & ?). unfold P.
  rewrite E1, E2, E3. auto.
Qed.

(** C2.  For every amount and every inventory, whatever [*possible] held
    on entry: if [calculateDenominations] reports the withdrawal possible,
    no count of the plan exceeds the count the inventory holds. *)
Theorem plan_within_inventory amount a p0 :
  reports_possible (calculateDenominations amount a p0) ->
  n2000 (calculateDenominations amount a p0) <= note2000 a /\
  n500 (calculateDenominations amount a p0) <= note500 a /\
  n200 (calculateDenominations amount a p0) <= note200 a /\
  n100 (calculateDenominations amount a p0) <= note100 a.
Proof.
  rewrite calculateDenominations_eq.
  destruct (greedy_pass amount a) as [[[[u2000 u500] u200] u100] r] eqn:Hg.
  apply greedy_pass_le in Hg. destruct Hg as (L1 & L2 & L3 & L4).
  destruct (r =? 0); [simpl; auto|].
  destruct (for_down _ _ _) as [s'|s'] eqn:Hloop.
  - unfold reports_possible. simpl. lia.
  - intros _. apply search_returned_within in Hloop.
    destruct Hloop as (B1 & B2 & B3 & B4 & _). lia.
Qed.

Lemma plan_within_inventory_witness :
  n2000 (calculateDenominations 2300 default_atm (Indet 7)) <= 10 /\
  n500 (calculateDenominations 2300 default_atm (Indet 7)) <= 20 /\
  n200 (calculateDenominations 2300 default_atm (Indet 7)) <= 50 /\
  n100 (calculateDenominations 2300 default_atm (Indet 7)) <= 100.
Proof.
  apply (plan_within_inventory 2300 default_atm (Indet 7)).
  vm_compute. discriminate.
Defined.

(** ** The code against the solver of the specification *)

Lemma down_from_In g x : In x (Reference.down_from g) -> 0 <= x <= g.
Proof.
  unfold Reference.down_from. rewrite in_map_iff.
  intros (n & <- & Hn). rewrite <- in_rev in Hn. apply in_seq in Hn. lia.
Qed.

Lemma candidates_In g1 g2 g3 x y z :
  In (x, y, z) (Reference.candidates g1 g2 g3) ->
  0 <= x <= g1 /\ 0 <= y <= g2 /\ 0 <= z <= g3.
Proof.
  unfold Reference.candidates. rewrite in_flat_map.
  intros (x' & Hx & H). rewrite in_flat_map in H.
  destruct H as (y' & Hy & H). rewrite in_map_iff in H.
  destruct H as (z' & [= <- <- <-] & Hz).
  auto using down_from_In.
Qed.

Lemma find_all_rejected {A} (f : A -> bool) (l : list A) :
  (forall x, In x l -> f x = false) -> List.find f l = None.
Proof.
  induction l as [|x l IH]; intros H; simpl; [reflexivity|].
  rewrite (H x) by (left; reflexivity).
  apply IH. intros y Hy. apply H. right. exact Hy.
Qed.

(** On non-negative amounts the four blocks of the code are the greedy
    fold of the specification: [floor] and C's [/] agree there. *)
Lemma greedy_matches_reference amount a :
  0 <= amount <= Int.INT_MAX -> inventory_ok a ->
  Reference.greedy Reference.denominations a amount =
  let '(u2000, u500, u200, u100, r) := greedy_pass amount a in
  ([u2000; u500; u200; u100], r).
Proof.
  intros Hamt (H2000 & H500 & H200 & H100).
  assert (Hr : forall x y, 0 <= x <= Int.INT_MAX -> 0 <= y <= x ->
                 Int.in_range y /\ 0 <= y <= Int.INT_MAX).
  { unfold Int.in_range, Int.INT_MIN, Int.INT_MAX. intros; lia. }
  assert (Int.in_range amount)
    by (revert Hamt; unfold Int.in_range, Int.INT_MIN, Int.INT_MAX; lia).
  unfold greedy_pass.
  destruct (greedy_take_exact 2000 (note2000 a) amount)
    as (x1 & r1 & -> & E1 & _ & M1 & P1 & _); [lia | auto | lia |].
  destruct P1 as (? & ?); [lia|]. destruct (Hr amount r1) as (? & ?); [lia..|].
  destruct (greedy_take_exact 500 (note500 a) r1)
    as (x2 & r2 & -> & E2 & _ & M2 & P2 & _); [lia | auto | lia |].
  destruct P2 as (? & ?); [lia|]. destruct (Hr r1 r2) as (? & ?); [lia..|].
  destruct (greedy_take_exact 200 (note200 a) r2)
    as (x3 & r3 & -> & E3 & _ & M3 & P3 & _); [lia | auto | lia |].
  destruct P3 as (? & ?); [lia|]. destruct (Hr r2 r3) as (? & ?); [lia..|].
  destruct (greedy_take_exact 100 (note100 a) r3)
    as (x4 & r4 & -> & E4 & _ & M4 & P4 & _); [lia | auto | lia |].
  rewrite Z.quot_div_nonneg in M1, M2, M3, M4 by lia.
  cbn [Reference.greedy Reference.denominations Reference.available Z.eqb
       Pos.eqb].
  rewrite <- M1, <- E1, <- M2, <- E2, <- M3, <- E3, <- M4, <- E4.
  reflexivity.
Qed.

(** A candidate the specification accepts is one the loop body returns on. *)
Lemma accepts_returns amount a x y z s :
  Int.in_range amount -> 0 <= x -> 0 <= y -> 0 <= z ->
  Reference.accepts amount a (x, y, z) = true ->
  exists s', try_combination amount a x y z s = Returned s'.
Proof.
  intros Ha Hx Hy Hz. unfold Reference.accepts, Reference.residual.
  cbn [Reference.available Z.eqb Pos.eqb].
  set (rem := amount - (2000 * x + 500 * y + 200 * z)).
  rewrite !andb_true_iff. intros [[H1 H2] H3].
  apply Z.leb_le in H1, H3. apply Z.eqb_eq in H2.
  unfold try_combination.
  rewrite residual_exact by (auto; subst rem; lia).
  fold rem. unfold Int.rem, Int.div.
  rewrite Z.rem_mod_nonneg, Z.quot_div_nonneg by lia.
  destruct (Z.ltb_spec rem 0); [lia|].
  rewrite H2. simpl.
  destruct (Z.leb_spec (rem / 100) (note100 a)); [eauto|lia].
Qed.

(** C4.  On every non-negative [int] amount and every inventory of
    non-negative counts, whatever [*possible] held on entry,
    [calculateDenominations] returns what the solver of the specification
    returns: the greedy plan of one descending pass when that leaves no
    remainder, otherwise the first accepted combination of the nested
    descending iteration, otherwise the greedy figures marked infeasible.
    For amount 2300 and inventory 10/20/50/100 the plan is 1/0/1/1. *)
Theorem calculateDenominations_refines_solve amount a p0 :
  0 <= amount <= Int.INT_MAX -> inventory_ok a ->
  (plan_of (calculateDenominations amount a p0),
   feasible_flag (calculateDenominations amount a p0))
  = Reference.solve amount a
  /\ (amount = 2300 -> a = default_atm ->
      plan_of (calculateDenominations amount a p0) = (1, 0, 1, 1)).
Proof.
  intros Hamt Hinv. split; [|intros -> ->; reflexivity].
  assert (Ha : Int.in_range amount)
    by (revert Hamt; unfold Int.in_range, Int.INT_MIN, Int.INT_MAX; lia).
  destruct (calculateDenominations_greedy amount a p0 Ha Hinv)
    as (u2000 & u500 & u200 & u100 & r & Hg & E1 & E2 & E3 & E4 & Hposs).
  unfold Reference.solve, feasible_flag, plan_of.
  rewrite greedy_matches_reference, Hg, E1, E2, E3, E4, Hposs by assumption.
  destruct (Z.eqb_spec r 0) as [|Hr]; [reflexivity|].
  rewrite find_all_rejected; [reflexivity|].
  intros [[x y] z] Hin. apply candidates_In in Hin.
  destruct Hin as (Hx & Hy & Hz).
  destruct (Reference.accepts amount a (x, y, z)) eqn:Hacc; [|reflexivity].
  destruct (accepts_returns amount a x y z
              (mkD 0 0 0 0 (Init 0) false) Ha) as (s' & Hret);
    [lia | lia | lia | exact Hacc |].
  rewrite (window_rejected amount a u2000 u500 u200 u100 r x y z) in Hret
    by assumption.
  discriminate.
Qed.

Lemma calculateDenominations_refines_solve_witness :
  (plan_of (calculateDenominations 2300 default_atm (Indet 7)),
   feasible_flag (calculateDenominations 2300 default_atm (Indet 7)))
  = Reference.solve 2300 default_atm
  /\ plan_of (calculateDenominations 2300 default_atm (Indet 7)) = (1, 0, 1, 1).
Proof.
  destruct (calculateDenominations_refines_solve 2300 default_atm (Indet 7))
    as [H1 H2].
  - unfold Int.INT_MAX; lia.
  - unfold inventory_ok, Int.INT_MAX; simpl; lia.
  - split; [exact H1 | apply H2; reflexivity].
Defined.

(** ** Completeness of the search *)

(** C5, as stated, fails: 600 can be paid as three 200-notes from the
    inventory 0/1/3/0, yet the greedy pass takes the 500-note first, no
    100-note is there for the hundred that is left, and the loops accept
    nothing the greedy pass has not found, so the call reports the amount
    impossible -- whatever [*possible] held on entry. *)
Lemma completeness_fails_at_600 :
  0 < 600 /\ 600 mod 100 = 0 /\
  inventory_ok (mkATM 0 1 3 0) /\
  feasible_plan 600 (mkATM 0 1 3 0) 0 0 3 0 /\
  forall g,
    ~ reports_possible (calculateDenominations 600 (mkATM 0 1 3 0) (Indet g)).
Proof.
  split; [lia|]. split; [reflexivity|].
  split; [unfold inventory_ok, Int.INT_MAX; simpl; lia|].
  split; [unfold feasible_plan; simpl; lia|].
  intros g. unfold reports_possible.
  destruct g; vm_compute; intros H; apply H; reflexivity.
Qed.

(** C5, amended.  For every [int] amount and every inventory of
    non-negative counts that holds at least one 100-note: if the amount can
    be paid from the inventory at all -- some counts within the stock add
    up to it -- [calculateDenominations] reports the withdrawal possible,
    whatever [*possible] held on entry. *)
Theorem possible_when_a_hundred_is_held amount a p0 x y z w :
  Int.in_range amount -> inventory_ok a -> 1 <= note100 a ->
  feasible_plan amount a x y z w ->
  reports_possible (calculateDenominations amount a p0).
Proof.
  intros Ha Hinv H100 (Hx & Hy & Hz & Hw & Hsum).
  destruct (calculateDenominations_greedy amount a p0 Ha Hinv)
    as (u2000 & u500 & u200 & u100 & r & Hg & _ & _ & _ & _ & Hposs).
  assert (Hamt : 0 <= amount <= Int.INT_MAX)
    by (unfold Int.in_range in Ha; lia).
  destruct (greedy_pass_steps amount a Hamt Hinv)
    as (v1 & v2 & v3 & v4 & r1 & r2 & r3 & r' & Hg' & M1 & E1 & M2 & E2 &
        M3 & E3 & M4 & E4 & P1 & P2 & P3).
  rewrite Hg in Hg'. injection Hg' as <- <- <- <- <-.
  unfold reports_possible. rewrite Hposs.
  assert (Hr : r = 0); [|rewrite Hr; simpl; lia].
  (* what is left for the 100-notes is a whole number [t] of hundreds *)
  set (t := 20 * x + 5 * y + 2 * z + w - 20 * u2000 - 5 * u500 - 2 * u200).
  assert (Et : r3 = t * 100) by (subst t; lia).
  rewrite Et, Z.quot_mul in M4 by lia.
  destruct (IntFacts.quot_bounds_nonneg amount 2000) as (_ & Q1); [lia..|].
  destruct (IntFacts.quot_bounds_nonneg r1 500) as (_ & Q2); [lia..|].
  destruct (IntFacts.quot_bounds_nonneg r2 200) as (_ & Q3); [lia..|].
  (* the plan holds no more 2000-notes than the pass took, and what it
     pays in 200- and 100-notes covers what the 500-block left *)
  assert (Hx' : x <= u2000) by lia.
  assert (Hcover : r2 <= 200 * z + 100 * w) by lia.
  assert (Ht : t <= note100 a) by lia.
  lia.
Qed.

Lemma possible_when_a_hundred_is_held_witness :
  Int.in_range 800 /\ inventory_ok (mkATM 0 1 4 1) /\
  1 <= note100 (mkATM 0 1 4 1) /\
  feasible_plan 800 (mkATM 0 1 4 1) 0 0 4 0 /\
  reports_possible (calculateDenominations 800 (mkATM 0 1 4 1) (Indet 7)).
Proof.
  assert (H1 : Int.in_range 800)
    by (unfold Int.in_range, Int.INT_MIN, Int.INT_MAX; lia).
  assert (H2 : inventory_ok (mkATM 0 1 4 1))
    by (unfold inventory_ok, Int.INT_MAX; simpl; lia).
  assert (H3 : 1 <= note100 (mkATM 0 1 4 1)) by (simpl; lia).
  assert (H4 : feasible_plan 800 (mkATM 0 1 4 1) 0 0 4 0)
    by (unfold feasible_plan; simpl; lia).
  split; [exact H1|]. split; [exact H2|]. split; [exact H3|].
  split; [exact H4|].
  exact (possible_when_a_hundred_is_held 800 (mkATM 0 1 4 1) (Indet 7)
           0 0 4 0 H1 H2 H3 H4).
Defined.

(** ** Reading the flag before it is assigned *)

(** C10 fails on the code.  On every non-negative [int] amount and every
    inventory of non-negative counts where the greedy pass leaves a
    remainder, the first test of the outer loop,
    [r2000 >= 0 && !( *possible )], reads [*possible] while no assignment
    of the call has reached it: the caller's stale value is what is
    tested. *)
Theorem possible_read_before_assignment amount a g :
  0 <= amount <= Int.INT_MAX -> inventory_ok a ->
  snd (greedy_pass amount a) <> 0 ->
  indet_read (calculateDenominations amount a (Indet g)) = true.
Proof.
  intros Hamt Hinv Hrem.
  assert (Ha : Int.in_range amount)
    by (revert Hamt; unfold Int.in_range, Int.INT_MIN, Int.INT_MAX; lia).
  destruct (greedy_pass_exact amount a Ha Hinv)
    as (u2000 & u500 & u200 & u100 & r & Hg & _ & _ & Hpos & _).
  rewrite calculateDenominations_eq, Hg. rewrite Hg in Hrem. simpl in Hrem.
  destruct (Z.eqb_spec r 0) as [|Hr]; [contradiction|].
  destruct Hpos as (H2000 & _); [lia|].
  destruct (for_down_reads (trips u2000)
              (fun r2000 => for_down (trips u500) (fun r500 =>
                 for_down (trips u200) (fun r200 =>
                   try_combination amount a r2000 r500 r200)))
              (mkD u2000 u500 u200 u100 (Indet g) false) g)
    as (s' & -> & Hread).
  - unfold trips. lia.
  - reflexivity.
  - intros x s1 Hx. apply trips_bound in Hx.
    apply for_down_running. intros y s2 Hy. apply trips_bound in Hy.
    apply for_down_running. intros z s3 Hz. apply trips_bound in Hz.
    exists s3. split; [|apply frame_refl].
    eapply window_rejected; eauto.
  - exact Hread.
Qed.

Lemma possible_read_before_assignment_witness :
  snd (greedy_pass 300 (mkATM 1 0 1 0)) = 100 /\
  forall g, indet_read (calculateDenominations 300 (mkATM 1 0 1 0) (Indet g))
            = true.
Proof.
  split; [reflexivity|]. intros g.
  apply (possible_read_before_assignment 300 (mkATM 1 0 1 0) g).
  - unfold Int.INT_MAX; lia.
  - unfold inventory_ok, Int.INT_MAX; simpl; lia.
  - vm_compute. discriminate.
Defined.

(** ** withdrawCash *)

(** Past the two amount tests the [int] amount is non-negative. *)
Lemma of_double_validated damount :
  Qle_bool damount 0 = false ->
  Int.rem (Int.of_double damount) 100 = 0 ->
  0 <= Int.of_double damount <= Int.INT_MAX.
Proof.
  unfold Int.of_double, Qle_bool. simpl. intros Hpos.
  apply Z.leb_gt in Hpos.
  destruct ((Int.INT_MIN <=? Qnum damount ÷ Z.pos (Qden damount))
            && (Qnum damount ÷ Z.pos (Qden damount) <=? Int.INT_MAX)) eqn:E.
  - intros _. apply andb_true_iff in E. destruct E as [_ H2].
    apply Z.leb_le in H2. split; [|exact H2].
    apply Z.quot_pos; lia.
  - intros H. vm_compute in H. discriminate.
Qed.

Lemma plan_counts_nonneg amount a p0 :
  0 <= amount <= Int.INT_MAX -> inventory_ok a ->
  0 <= n2000 (calculateDenominations amount a p0) /\
  0 <= n500 (calculateDenominations amount a p0) /\
  0 <= n200 (calculateDenominations amount a p0) /\
  0 <= n100 (calculateDenominations amount a p0).
Proof.
  intros Hamt Hinv.
  assert (Ha : Int.in_range amount)
    by (revert Hamt; unfold Int.in_range, Int.INT_MIN, Int.INT_MAX; lia).
  destruct (calculateDenominations_greedy amount a p0 Ha Hinv)
    as (u2000 & u500 & u200 & u100 & r & Hg & -> & -> & -> & -> & _).
  destruct (greedy_pass_exact amount a Ha Hinv)
    as (v1 & v2 & v3 & v4 & r' & Hg' & _ & _ & Hpos & _).
  rewrite Hg in Hg'. injection Hg' as <- <- <- <- <-.
  destruct Hpos as (? & ? & ? & ? & _); [lia|]. auto.
Qed.

(** The inventory debit of a committed withdrawal is exact and leaves
    counts between 0 and what was there. *)
Lemma inventory_debit_exact amount a p0 :
  0 <= amount <= Int.INT_MAX -> inventory_ok a ->
  reports_possible (calculateDenominations amount a p0) ->
  let d := calculateDenominations amount a p0 in
  Int.sub (note2000 a) (n2000 d) = note2000 a - n2000 d /\
  Int.sub (note500 a) (n500 d) = note500 a - n500 d /\
  Int.sub (note200 a) (n200 d) = note200 a - n200 d /\
  Int.sub (note100 a) (n100 d) = note100 a - n100 d /\
  0 <= n2000 d <= note2000 a /\ 0 <= n500 d <= note500 a /\
  0 <= n200 d <= note200 a /\ 0 <= n100 d <= note100 a.
Proof.
  intros Hamt Hinv Hp d.
  destruct (plan_counts_nonneg amount a p0 Hamt Hinv) as (? & ? & ? & ?).
  assert (Ha : Int.in_range amount)
    by (revert Hamt; unfold Int.in_range, Int.INT_MIN, Int.INT_MAX; lia).
  destruct (calculateDenominations_greedy amount a p0 Ha Hinv)
    as (u2000 & u500 & u200 & u100 & r & Hg & E1 & E2 & E3 & E4 & _).
  apply greedy_pass_le in Hg. rewrite <- E1, <- E2, <- E3, <- E4 in Hg.
  destruct Hg as (? & ? & ? & ?).
  destruct Hinv as (? & ? & ? & ?). subst d.
  repeat split; try lia;
    apply IntFacts.sub_exact; unfold Int.in_range, Int.INT_MIN;
    unfold Int.INT_MAX in *; lia.
Qed.

(** The branch [withdrawCash] takes, test by test. *)
Lemma withdrawCash_cases damount confirm garbage acc a j :
  let w := withdrawCash damount confirm garbage acc a j in
  let amount := Int.of_double damount in
  let d := calculateDenominations amount a (Indet garbage) in
  (w = mkW InvalidAmount_nonpositive acc a j /\ Qle_bool damount 0 = true) \/
  (w = mkW InvalidAmount_not_multiple acc a j /\ Qle_bool damount 0 = false /\
     Int.rem amount 100 <> 0) \/
  (Qle_bool damount 0 = false /\ Int.rem amount 100 = 0 /\
   ((w = mkW InsufficientFunds acc a j /\
       amount > Int.of_double (Double.plus (balance acc) Double.c0001)) \/
    (amount <= Int.of_double (Double.plus (balance acc) Double.c0001) /\
     ((w = mkW InsufficientTotalCash acc a j /\ amount > atmTotal a) \/
      (w = mkW Infeasible acc a j /\ ~ reports_possible d) \/
      (w = mkW Declined acc a j /\ reports_possible d /\ confirm = 0) \/
      (reports_possible d /\ confirm <> 0 /\
       w = mkW (Committed amount d)
             (set_balance (balance acc - inject_Z amount)%Q acc)
             (mkATM (Int.sub (note2000 a) (n2000 d))
                    (Int.sub (note500 a) (n500 d))
                    (Int.sub (note200 a) (n200 d))
                    (Int.sub (note100 a) (n100 d)))
             (recordTransaction
                (mkTransaction (accountNumber acc) "Withdrawal"
                   (inject_Z amount) (balance acc - inject_Z amount)%Q) j)))))).
Proof.
  intros w amount d. subst w. unfold withdrawCash. fold amount. fold d.
  destruct (Qle_bool damount 0); [left; auto|right].
  destruct (Z.eqb_spec (Int.rem amount 100) 0) as [Hm|Hm]; cbn [negb];
    [right|left; auto].
  split; [reflexivity|]. split; [exact Hm|].
  destruct (Z.gtb_spec amount (Int.of_double (Double.plus (balance acc) Double.c0001)));
    [left; split; [reflexivity|lia] | right; split; [lia|]].
  destruct (Z.gtb_spec amount (atmTotal a));
    [left; split; [reflexivity|lia] | right].
  unfold reports_possible.
  destruct (Z.eqb_spec (cell_val (possible d)) 0) as [Hp|Hp];
    [left; split; [reflexivity|lia] | right].
  destruct (Z.eqb_spec confirm 0) as [Hc|Hc]; [left; auto | right; auto].
Qed.

(** C3.  For every withdrawal request on an inventory of non-negative
    counts: when the withdrawal is committed, the balance afterwards is
    the balance before minus the amount and every note count is the count
    before minus the count of the plan; on each of the six rejections
    (amount not positive, not a multiple of 100, insufficient funds,
    insufficient total cash, no dispensable combination, confirmation
    declined) the account, the four note counts and the journal are
    exactly as before.  So neither debit is ever applied without the
    other. *)
Theorem withdraw_all_or_nothing damount confirm garbage acc a j :
  inventory_ok a ->
  let w := withdrawCash damount confirm garbage acc a j in
  match w_outcome w with
  | Committed amount d =>
      amount = Int.of_double damount /\
      d = calculateDenominations amount a (Indet garbage) /\
      balance (w_acc w) = (balance acc - inject_Z amount)%Q /\
      note2000 (w_atm w) = note2000 a - n2000 d /\
      note500 (w_atm w) = note500 a - n500 d /\
      note200 (w_atm w) = note200 a - n200 d /\
      note100 (w_atm w) = note100 a - n100 d
  | InvalidAmount_nonpositive | InvalidAmount_not_multiple
  | InsufficientFunds | InsufficientTotalCash | Infeasible | Declined =>
      w_acc w = acc /\ w_atm w = a /\ w_journal w = j
  end.
Proof.
  intros Hinv w.
  destruct (withdrawCash_cases damount confirm garbage acc a j)
    as [[E _] | [[E _] | (Hpos & Hmul & [[E _] | [_ [[E _] | [[E _] |
         [[E _] | (Hp & Hc & E)]]]]])]];
    fold w in E; rewrite E; cbn [w_outcome w_acc w_atm w_journal]; auto.
  pose proof (of_double_validated damount Hpos Hmul) as Hamt.
  destruct (inventory_debit_exact (Int.of_double damount) a (Indet garbage)
              Hamt Hinv Hp) as (E1 & E2 & E3 & E4 & _).
  cbn [note2000 note500 note200 note100 set_balance balance].
  rewrite E1, E2, E3, E4. repeat split; reflexivity.
Qed.

Lemma withdraw_all_or_nothing_witness :
  inventory_ok default_atm /\
  withdrawCash 2300 1 7 (mkAccount 1002 2345 5000 "Anita" 0 0) default_atm []
  = mkW (Committed 2300 (mkD 1 0 1 1 (Init 1) false))
        (mkAccount 1002 2345 (5000 - 2300) "Anita" 0 0)
        (mkATM 9 20 49 99)
        [mkTransaction 1002 "Withdrawal" 2300 (5000 - 2300)] /\
  balance (w_acc (withdrawCash 2300 1 7 (mkAccount 1002 2345 5000 "Anita" 0 0)
                    default_atm []))
  = (5000 - inject_Z 2300)%Q.
Proof.
  assert (H : inventory_ok default_atm)
    by (unfold inventory_ok, Int.INT_MAX; simpl; lia).
  split; [exact H|]. split; [reflexivity|].
  pose proof (withdraw_all_or_nothing 2300 1 7
                (mkAccount 1002 2345 5000 "Anita" 0 0) default_atm [] H) as W.
  cbv zeta in W.
  change (w_outcome (withdrawCash 2300 1 7
            (mkAccount 1002 2345 5000 "Anita" 0 0) default_atm []))
    with (Committed 2300 (mkD 1 0 1 1 (Init 1) false)) in W.
  cbv iota beta in W.
  apply W.
Defined.

(** ** Balances *)

(** Truncation never rounds a non-negative number up. *)
Lemma of_double_le x : (0 <= x)%Q -> (inject_Z (Int.of_double x) <= x)%Q.
Proof.
  destruct x as [n d]. unfold Qle, Int.of_double. simpl. intros Hn.
  destruct (IntFacts.quot_bounds_nonneg n (Z.pos d)) as [H1 H2]; [lia..|].
  destruct (_ && _); [lia|]. unfold Int.INT_MIN. nia.
Qed.

(** What [withdrawCash] does to the account. *)
Lemma withdrawCash_account damount confirm garbage acc a j :
  w_acc (withdrawCash damount confirm garbage acc a j) = acc \/
  exists amount,
    0 <= amount <= Int.INT_MAX /\
    amount <= Int.of_double (Double.plus (balance acc) Double.c0001) /\
    w_acc (withdrawCash damount confirm garbage acc a j)
    = set_balance (balance acc - inject_Z amount)%Q acc.
Proof.
  destruct (withdrawCash_cases damount confirm garbage acc a j)
    as [[E _] | [[E _] | (Hpos & Hmul & [[E _] | [Hle [[E _] | [[E _] |
         [[E _] | (Hp & Hc & E)]]]]])]];
    rewrite E; cbn [w_acc]; auto.
  right. exists (Int.of_double damount).
  pose proof (of_double_validated damount Hpos Hmul). repeat split; auto; lia.
Qed.

(** ** The funds test *)








(** ** Operations of the menus and the balances *)

Lemma pin_loop_balance pins acc : balance (snd (pin_loop pins acc)) = balance acc.
Proof.
  revert acc. induction pins as [|p rest IH]; intros acc; simpl; [reflexivity|].
  destruct (p =? pin acc); [reflexivity|].
  destruct (_ >? 0); [rewrite IH|]; reflexivity.
Qed.

Section BalanceInvariant.

Variable P : Q -> Prop.

Hypothesis withdraw_keeps :
  forall damount confirm garbage acc a j,
    P (balance acc) ->
    P (balance (w_acc (withdrawCash damount confirm garbage acc a j))).








End BalanceInvariant.



(** A balance that is no amount with two decimals is not covered: on the
    double nearest to 99.9999 the sum [balance + 0.0001] rounds to 100, the
    funds test lets 100 through and the debit leaves less than -0.0001. *)
Lemma funds_test_rounds_up :
  let b := Double.round (999999 # 10000) in
  let s := mkSystem [mkAccount 1001 1234 b "Zaid" 0 0] default_atm [] in
  let s' := main_step (UserLogin 1001 [1234] [CashWithdrawal 100 1 0; Logout]) s in
  (Double.plus b Double.c0001 == 100)%Q /\
  exists acc, accounts s' = [acc] /\ (balance acc < - (1 # 10000))%Q.
Proof.
  cbv zeta. split; [vm_compute; reflexivity|].
  eexists. split; [vm_compute; reflexivity|]. vm_compute. reflexivity.
Qed.

(** ** The inventory *)

Lemma withdrawCash_inventory damount confirm garbage acc a j :
  inventory_ok a ->
  inventory_ok (w_atm (withdrawCash damount confirm garbage acc a j)).
Proof.
  intros Hinv.
  destruct (withdrawCash_cases damount confirm garbage acc a j)
    as [[E _] | [[E _] | (Hpos & Hmul & [[E _] | [_ [[E _] | [[E _] |
         [[E _] | (Hp & Hc & E)]]]]])]];
    rewrite E; cbn [w_atm]; auto.
  pose proof (of_double_validated damount Hpos Hmul) as Hamt.
  destruct (inventory_debit_exact (Int.of_double damount) a (Indet garbage)
              Hamt Hinv Hp) as (E1 & E2 & E3 & E4 & B1 & B2 & B3 & B4).
  destruct Hinv as (? & ? & ? & ?).
  unfold inventory_ok. cbn [note2000 note500 note200 note100].
  rewrite E1, E2, E3, E4. lia.
Qed.

Lemma refill_refused a b c d m :
  a < 0 \/ b < 0 \/ c < 0 \/ d < 0 -> refill a b c d m = m.
Proof.
  intros H. unfold refill.
  destruct (Z.ltb_spec a 0), (Z.ltb_spec b 0), (Z.ltb_spec c 0),
    (Z.ltb_spec d 0); simpl; try reflexivity; lia.
Qed.

Lemma refill_inventory a b c d m :
  inventory_ok m -> refill_fits a b c d m -> inventory_ok (refill a b c d m).
Proof.
  intros Hinv [Hneg | Hfit]; [rewrite refill_refused; assumption|].
  unfold refill.
  destruct (Z.ltb_spec a 0), (Z.ltb_spec b 0), (Z.ltb_spec c 0),
    (Z.ltb_spec d 0); simpl; try exact Hinv.
  destruct Hinv as (? & ? & ? & ?), Hfit as (? & ? & ? & ?).
  unfold inventory_ok. cbn [note2000 note500 note200 note100].
  rewrite !IntFacts.add_exact;
    unfold Int.in_range, Int.INT_MIN; unfold Int.INT_MAX in *; lia.
Qed.

Lemma admin_loop_inventory choices s :
  inventory_ok (atm s) -> admin_fits choices (atm s) ->
  inventory_ok (atm (admin_loop choices s)).
Proof.
  revert s. induction choices as [|c rest IH]; intros s Hinv Hfit; [exact Hinv|].
  destruct c; cbn [admin_loop admin_fits] in *; try exact Hinv;
    try (apply IH; assumption).
  destruct Hfit as [Hfit Hrest]. apply IH; cbn [admin_step atm].
  - apply refill_inventory; assumption.
  - exact Hrest.
Qed.

Lemma user_loop_inventory idx choices s :
  inventory_ok (atm s) -> inventory_ok (atm (user_loop idx choices s)).
Proof.
  revert s. induction choices as [|c rest IH]; intros s Hinv; [exact Hinv|].
  assert (Hstep : inventory_ok (atm (user_step idx c s))).
  { unfold user_step. destruct (accounts s !! idx); [|exact Hinv].
    destruct c; try exact Hinv. cbn [atm].
    apply withdrawCash_inventory, Hinv. }
  destruct c; cbn [user_loop]; try exact Hinv; apply IH; exact Hstep.
Qed.

Lemma main_step_inventory c s :
  inventory_ok (atm s) -> main_fits c s -> inventory_ok (atm (main_step c s)).
Proof.
  intros Hinv Hfit. destruct c as [accNum pins session|p choices| |];
    cbn [main_step main_fits] in *; try exact Hinv.
  - destruct (login accNum pins (accounts s)) as [r accs].
    destruct r; try exact Hinv. apply user_loop_inventory. exact Hinv.
  - unfold adminMenu. destruct (negb _); [exact Hinv|].
    apply admin_loop_inventory; assumption.
Qed.

(** C7, as stated, fails: a refill has no upper limit, and the [int]
    counter wraps.  Ten 2000-notes plus a refill of 2147483647 leave the
    counter at -2147483639. *)
Lemma refill_overflows_counter :
  let s' := main_step (AdminMenu 999999 [RefillNotes 2147483647 0 0 0; ExitAdmin])
                      initial_system in
  inventory_ok (atm initial_system) /\
  0 <= 2147483647 <= Int.INT_MAX /\
  atm s' = mkATM (-2147483639) 20 50 100 /\
  ~ inventory_ok (atm s').
Proof.
  cbv zeta. split; [|split; [|split]].
  - unfold inventory_ok, Int.INT_MAX; simpl; lia.
  - unfold Int.INT_MAX; lia.
  - reflexivity.
  - intros (H & _). vm_compute in H. destruct H as [H _]. apply H. reflexivity.
Qed.

(** C7, amended.  Starting from four non-negative counts, every choice of
    the main menu -- a user session with any withdrawals, an admin session
    with any refills and unlocks -- leaves four non-negative counts,
    provided no accepted refill takes a counter past [INT_MAX]; a refill
    with a negative number among the four leaves all counts unchanged. *)
Theorem inventory_stays_nonneg c s :
  inventory_ok (atm s) -> main_fits c s ->
  inventory_ok (atm (main_step c s)) /\
  (forall x y z w, x < 0 \/ y < 0 \/ z < 0 \/ w < 0 ->
     refill x y z w (atm s) = atm s).
Proof.
  intros Hinv Hfit. split.
  - apply main_step_inventory; assumption.
  - intros. apply refill_refused. assumption.
Qed.

Lemma inventory_stays_nonneg_witness :
  inventory_ok (atm initial_system) /\
  inventory_ok
    (atm (main_step (AdminMenu 999999 [RefillNotes 5 0 (-1) 0;
                                        RefillNotes 5 10 0 0; ExitAdmin])
                    initial_system)).
Proof.
  assert (H : inventory_ok (atm initial_system))
    by (unfold inventory_ok, Int.INT_MAX; simpl; lia).
  split; [exact H|].
  apply (inventory_stays_nonneg
           (AdminMenu 999999 [RefillNotes 5 0 (-1) 0; RefillNotes 5 10 0 0;
                              ExitAdmin]) initial_system H).
  cbn. unfold refill_fits, Int.INT_MAX. simpl. split; [left; lia|].
  split; [right; lia | exact I].
Defined.

(** ** login and the lock *)

Lemma findAccountIndex_Some accNum accs idx :
  findAccountIndex accNum accs = Some idx <->
  exists acc, accs !! idx = Some acc /\ accountNumber acc = accNum /\
    forall j y, accs !! j = Some y -> (j < idx)%nat -> accountNumber y <> accNum.
Proof.
  unfold findAccountIndex. split.
  - destruct (list_find _ accs) as [[i x]|] eqn:E; [|discriminate].
    intros [= <-]. apply list_find_Some in E. eauto.
  - intros (acc & H).
    apply (list_find_Some (fun a => accountNumber a = accNum)) in H.
    rewrite H. reflexivity.
Qed.

(** Replacing an account by one with the same number does not move it. *)
Lemma findAccountIndex_insert accNum accs idx acc' :
  findAccountIndex accNum accs = Some idx ->
  accountNumber acc' = accNum ->
  findAccountIndex accNum (<[idx := acc']> accs) = Some idx.
Proof.
  rewrite !findAccountIndex_Some. intros (acc & Hl & Hn & Hmin) Hn'.
  exists acc'. split; [|split; [exact Hn'|]].
  - apply list_lookup_insert_eq. eapply lookup_lt_Some. exact Hl.
  - intros j y Hj Hlt. rewrite list_lookup_insert_ne in Hj by lia. eauto.
Qed.

(** A locked account: no PIN is even asked for. *)
Lemma login_locked accNum pins accs idx acc :
  findAccountIndex accNum accs = Some idx -> accs !! idx = Some acc ->
  locked acc <> 0 ->
  login accNum pins accs = (AccountLocked, accs).
Proof.
  intros Hf Hl Hlock. unfold login. rewrite Hf, Hl.
  destruct (Z.eqb_spec (locked acc) 0); [contradiction|reflexivity].
Qed.

(** Mismatches until the counter reaches 3. *)
Lemma pin_loop_lockout wrong : forall acc rest,
  0 <= loginAttempts acc < 3 ->
  length wrong = Z.to_nat (3 - loginAttempts acc) ->
  Forall (fun p => p <> pin acc) wrong ->
  pin_loop (wrong ++ rest) acc = (Some false, locked_out acc).
Proof.
  induction wrong as [|p ws IH]; intros acc rest Hc Hlen Hwrong.
  - simpl in Hlen. lia.
  - apply Forall_cons in Hwrong. destruct Hwrong as [Hp Hws].
    cbn [app pin_loop]. destruct (Z.eqb_spec p (pin acc)); [contradiction|].
    cbn [set_loginAttempts loginAttempts].
    rewrite (IntFacts.add_exact (loginAttempts acc) 1)
      by (unfold Int.in_range, Int.INT_MIN, Int.INT_MAX; lia).
    rewrite IntFacts.sub_exact
      by (unfold Int.in_range, Int.INT_MIN, Int.INT_MAX; lia).
    destruct (Z.gtb_spec (3 - (loginAttempts acc + 1)) 0) as [Hmore|Hlast].
    + rewrite IH; [reflexivity | simpl; lia | simpl in *; lia | exact Hws].
    + unfold locked_out, set_locked, set_loginAttempts. simpl.
      replace (loginAttempts acc + 1) with 3 by lia. reflexivity.
Qed.

(** Fewer mismatches than that, then the right PIN: the counter is reset. *)
Lemma pin_loop_success wrong : forall acc rest,
  0 <= loginAttempts acc ->
  loginAttempts acc + Z.of_nat (length wrong) < 3 ->
  Forall (fun p => p <> pin acc) wrong ->
  pin_loop (wrong ++ pin acc :: rest) acc = (Some true, set_loginAttempts 0 acc).
Proof.
  induction wrong as [|p ws IH]; intros acc rest Hc Hlen Hwrong.
  - cbn [app pin_loop]. rewrite Z.eqb_refl. reflexivity.
  - apply Forall_cons in Hwrong. destruct Hwrong as [Hp Hws].
    cbn [app pin_loop]. destruct (Z.eqb_spec p (pin acc)); [contradiction|].
    cbn [set_loginAttempts loginAttempts]. cbn [length] in Hlen.
    rewrite (IntFacts.add_exact (loginAttempts acc) 1)
      by (unfold Int.in_range, Int.INT_MIN, Int.INT_MAX; lia).
    rewrite IntFacts.sub_exact
      by (unfold Int.in_range, Int.INT_MIN, Int.INT_MAX; lia).
    destruct (Z.gtb_spec (3 - (loginAttempts acc + 1)) 0) as [Hmore|Hlast];
      [|lia].
    change (pin acc) with
      (pin (mkAccount (accountNumber acc) (pin acc) (balance acc) (name acc)
              (loginAttempts acc + 1) (locked acc))) at 1.
    rewrite IH; [reflexivity | simpl; lia | simpl; lia | exact Hws].
Qed.

(** C8.  For every account that is not locked and whose counter of
    mismatches since the last successful login or unlock is below 3:
    once the mismatches add up to 3 the lock flag is set; from then on
    every login for that account is rejected as locked whatever PINs are
    typed, the correct one included; the administrative unlock clears the
    flag and resets the counter to 0, after which the correct PIN logs
    in. *)
Theorem lockout_until_unlocked accs accNum idx acc wrong rest :
  findAccountIndex accNum accs = Some idx -> accs !! idx = Some acc ->
  locked acc = 0 -> 0 <= loginAttempts acc < 3 ->
  length wrong = Z.to_nat (3 - loginAttempts acc) ->
  Forall (fun p => p <> pin acc) wrong ->
  let accs1 := <[idx := locked_out acc]> accs in
  let accs2 := <[idx := unlocked (locked_out acc)]> accs in
  login accNum (wrong ++ rest) accs = (LockedOut, accs1) /\
  accs1 !! idx = Some (locked_out acc) /\
  locked (locked_out acc) = 1 /\
  (forall pins, login accNum pins accs1 = (AccountLocked, accs1)) /\
  login accNum [pin acc] accs1 = (AccountLocked, accs1) /\
  unlock accNum accs1 = accs2 /\
  accs2 !! idx = Some (unlocked (locked_out acc)) /\
  locked (unlocked (locked_out acc)) = 0 /\
  loginAttempts (unlocked (locked_out acc)) = 0 /\
  login accNum [pin acc] accs2 = (LoginOk idx, accs2).
Proof.
  intros Hf Hl Hlock Hc Hlen Hwrong accs1 accs2.
  assert (Hlt : (idx < length accs)%nat) by (eapply lookup_lt_Some; exact Hl).
  assert (Hn : accountNumber acc = accNum).
  { apply findAccountIndex_Some in Hf. destruct Hf as (x & Hx & Hn & _).
    congruence. }
  assert (Hf1 : findAccountIndex accNum accs1 = Some idx)
    by (apply findAccountIndex_insert; assumption).
  assert (Hl1 : accs1 !! idx = Some (locked_out acc))
    by (apply list_lookup_insert_eq; exact Hlt).
  assert (Hrej : forall pins, login accNum pins accs1 = (AccountLocked, accs1)).
  { intros pins. apply (login_locked accNum pins accs1 idx (locked_out acc));
      [assumption | assumption | simpl; lia]. }
  assert (Hun : unlock accNum accs1 = accs2).
  { unfold unlock. rewrite Hf1, Hl1. subst accs1 accs2.
    apply list_insert_insert_eq. }
  assert (Hf2 : findAccountIndex accNum accs2 = Some idx)
    by (apply findAccountIndex_insert; assumption).
  assert (Hl2 : accs2 !! idx = Some (unlocked (locked_out acc)))
    by (apply list_lookup_insert_eq; exact Hlt).
  repeat split; auto.
  - unfold login. rewrite Hf, Hl, Hlock. cbn [Z.eqb negb].
    rewrite pin_loop_lockout by assumption. reflexivity.
  - unfold login. rewrite Hf2, Hl2. cbn [unlocked locked_out set_locked
      set_loginAttempts locked pin pin_loop Z.eqb negb].
    rewrite Z.eqb_refl. f_equal. subst accs2.
    rewrite list_insert_insert_eq. reflexivity.
Qed.

Lemma lockout_until_unlocked_witness :
  login 1001 [1; 2; 3; 1234] sample_accounts
  = (LockedOut, <[0%nat := mkAccount 1001 1234 15000 "Zaid" 3 1]> sample_accounts)
  /\ login 1001 [1234]
       (<[0%nat := mkAccount 1001 1234 15000 "Zaid" 3 1]> sample_accounts)
     = (AccountLocked,
        <[0%nat := mkAccount 1001 1234 15000 "Zaid" 3 1]> sample_accounts)
  /\ login 1001 [1234]
       (unlock 1001
          (<[0%nat := mkAccount 1001 1234 15000 "Zaid" 3 1]> sample_accounts))
     = (LoginOk 0, sample_accounts).
Proof.
  destruct (lockout_until_unlocked sample_accounts 1001 0
              (mkAccount 1001 1234 15000 "Zaid" 0 0) [1; 2; 3] [1234])
    as (H1 & _ & _ & _ & H2 & _ & _ & _ & _ & H4).
  - reflexivity.
  - reflexivity.
  - reflexivity.
  - simpl; lia.
  - reflexivity.
  - repeat constructor; simpl; lia.
  - split; [exact H1|]. split; [exact H2|]. exact H4.
Defined.

(** ** Validation of the amount *)

(** What the two amount tests do establish: a request that gets past them
    has an [int] amount that is a multiple of 100 and not negative. *)
Lemma validated_amount damount confirm garbage acc a j :
  w_outcome (withdrawCash damount confirm garbage acc a j)
    <> InvalidAmount_nonpositive ->
  w_outcome (withdrawCash damount confirm garbage acc a j)
    <> InvalidAmount_not_multiple ->
  0 <= Int.of_double damount /\ Int.rem (Int.of_double damount) 100 = 0.
Proof.
  intros N1 N2.
  destruct (withdrawCash_cases damount confirm garbage acc a j)
    as [[E _] | [[E _] | (Hpos & Hmul & _)]].
  - rewrite E in N1. contradiction.
  - rewrite E in N2. contradiction.
  - split; [apply of_double_validated; assumption | exact Hmul].
Qed.

(** C9 fails on the code.  The test for a positive amount is made on the
    number typed, the test for a multiple of 100 on its integer part.  A
    request for 0.5 passes both with the amount 0 and is committed as a
    withdrawal of nothing, with a journal line; a request for 100.5 is
    committed as a withdrawal of 100. *)
Theorem zero_amount_passes_validation garbage :
  withdrawCash (1 # 2) 1 garbage
    (mkAccount 1001 1234 15000 "Zaid" 0 0) default_atm []
  = mkW (Committed 0 (mkD 0 0 0 0 (Init 1) false))
        (mkAccount 1001 1234 (15000 - 0) "Zaid" 0 0)
        default_atm
        [mkTransaction 1001 "Withdrawal" 0 (15000 - 0)]
  /\
  withdrawCash (201 # 2) 1 garbage
    (mkAccount 1001 1234 15000 "Zaid" 0 0) default_atm []
  = mkW (Committed 100 (mkD 0 0 0 1 (Init 1) false))
        (mkAccount 1001 1234 (15000 - 100) "Zaid" 0 0)
        (mkATM 10 20 50 99)
        [mkTransaction 1001 "Withdrawal" 100 (15000 - 100)].
Proof. split; reflexivity. Qed.

(** * Further properties of the code *)

(** ** calculateDenominations *)

(** X1.  On every [int] amount and every inventory of non-negative
    counts the value found in [*possible] on entry has no influence on
    what [calculateDenominations] returns, and the withdrawal is reported
    possible exactly when the greedy pass ends with nothing left. *)
Theorem stale_flag_has_no_influence amount a p0 p1 :
  Int.in_range amount -> inventory_ok a ->
  plan_of (calculateDenominations amount a p0)
  = plan_of (calculateDenominations amount a p1) /\
  possible (calculateDenominations amount a p0)
  = possible (calculateDenominations amount a p1) /\
  (reports_possible (calculateDenominations amount a p0) <->
   snd (greedy_pass amount a) = 0).
Proof.
  intros Ha Hinv.
  destruct (calculateDenominations_greedy amount a p0 Ha Hinv)
    as (u2000 & u500 & u200 & u100 & r & Hg & E1 & E2 & E3 & E4 & Hp0).
  destruct (calculateDenominations_greedy amount a p1 Ha Hinv)
    as (v2000 & v500 & v200 & v100 & r' & Hg' & F1 & F2 & F3 & F4 & Hp1).
  rewrite Hg in Hg'. injection Hg' as <- <- <- <- <-.
  unfold plan_of, reports_possible.
  rewrite E1, E2, E3, E4, F1, F2, F3, F4, Hp0, Hp1, Hg.
  split; [reflexivity|]. split; [reflexivity|].
  simpl. destruct (Z.eqb_spec r 0); simpl; split; intros; lia.
Qed.

Lemma stale_flag_has_no_influence_witness :
  plan_of (calculateDenominations 300 (mkATM 1 0 1 0) (Indet 0))
  = plan_of (calculateDenominations 300 (mkATM 1 0 1 0) (Indet 5)) /\
  possible (calculateDenominations 300 (mkATM 1 0 1 0) (Indet 0))
  = possible (calculateDenominations 300 (mkATM 1 0 1 0) (Indet 5)).
Proof.
  destruct (stale_flag_has_no_influence 300 (mkATM 1 0 1 0) (Indet 0) (Indet 5))
    as (H1 & H2 & _).
  - unfold Int.in_range, Int.INT_MIN, Int.INT_MAX; lia.
  - unfold inventory_ok, Int.INT_MAX; simpl; lia.
  - split; assumption.
Defined.

(** X2.  An amount that is not a multiple of 100 is never reported
    possible, on any inventory of non-negative counts. *)
Theorem odd_amount_never_possible amount a p0 :
  Int.in_range amount -> inventory_ok a ->
  Z.rem amount 100 <> 0 ->
  ~ reports_possible (calculateDenominations amount a p0).
Proof.
  intros Ha Hinv Hodd Hp.
  destruct (calculateDenominations_greedy amount a p0 Ha Hinv)
    as (u2000 & u500 & u200 & u100 & r & Hg & _ & _ & _ & _ & Hposs).
  destruct (greedy_pass_exact amount a Ha Hinv)
    as (v1 & v2 & v3 & v4 & r' & Hg' & Er & _).
  rewrite Hg in Hg'. injection Hg' as <- <- <- <- <-.
  unfold reports_possible in Hp. rewrite Hposs in Hp.
  destruct (Z.eqb_spec r 0) as [Hr|]; [|simpl in Hp; lia].
  apply Hodd. apply Z.rem_divide; [lia|].
  exists (20 * u2000 + 5 * u500 + 2 * u200 + u100). lia.
Qed.

Lemma odd_amount_never_possible_witness :
  ~ reports_possible (calculateDenominations 250 default_atm (Indet 0)).
Proof.
  apply (odd_amount_never_possible 250 default_atm (Indet 0)).
  - unfold Int.in_range, Int.INT_MIN, Int.INT_MAX; lia.
  - unfold inventory_ok, Int.INT_MAX; simpl; lia.
  - vm_compute. discriminate.
Defined.

(** X3.  Whenever the 100-notes in stock could pay the amount on their
    own -- a multiple of 100 in [0, INT_MAX] not above [100 * note100] --
    the withdrawal is reported possible, whatever the other stocks are. *)
Theorem hundreds_alone_suffice amount a p0 :
  0 <= amount <= Int.INT_MAX -> inventory_ok a ->
  amount <= 100 * note100 a -> Z.rem amount 100 = 0 ->
  reports_possible (calculateDenominations amount a p0).
Proof.
  intros Hamt Hinv Hcover Hdiv.
  assert (Ha : Int.in_range amount)
    by (revert Hamt; unfold Int.in_range, Int.INT_MIN, Int.INT_MAX; lia).
  destruct (calculateDenominations_greedy amount a p0 Ha Hinv)
    as (u2000 & u500 & u200 & u100 & r & Hg & _ & _ & _ & _ & Hposs).
  destruct (greedy_pass_exact amount a Ha Hinv)
    as (v1 & v2 & v3 & v4 & r' & Hg' & Er & E100 & Hpos & _).
  rewrite Hg in Hg'. injection Hg' as <- <- <- <- <-.
  destruct Hpos as (? & ? & ? & ? & ? & HR3); [lia|].
  apply Z.rem_divide in Hdiv; [|lia]. destruct Hdiv as [m Hm].
  assert (E3 : amount - (2000 * u2000 + 500 * u500 + 200 * u200)
               = (m - (20 * u2000 + 5 * u500 + 2 * u200)) * 100) by lia.
  rewrite E3, Z.quot_mul in E100 by lia.
  unfold reports_possible. rewrite Hposs.
  assert (Hr : r = 0) by lia. rewrite Hr. simpl. lia.
Qed.

Lemma hundreds_alone_suffice_witness :
  reports_possible (calculateDenominations 300 (mkATM 0 0 1 3) (Indet 0)).
Proof.
  apply (hundreds_alone_suffice 300 (mkATM 0 0 1 3) (Indet 0)).
  - unfold Int.INT_MAX; lia.
  - unfold inventory_ok, Int.INT_MAX; simpl; lia.
  - simpl; lia.
  - reflexivity.
Defined.

(** X4.  For an amount in [0, INT_MAX] on an inventory of non-negative
    counts the counts returned -- accepted or not -- are never negative,
    never above the stock and never worth more than the amount; and the
    withdrawal is reported possible exactly when they are worth the amount. *)
Theorem returned_counts_never_overpay amount a p0 :
  0 <= amount <= Int.INT_MAX -> inventory_ok a ->
  let d := calculateDenominations amount a p0 in
  0 <= n2000 d <= note2000 a /\ 0 <= n500 d <= note500 a /\
  0 <= n200 d <= note200 a /\ 0 <= n100 d <= note100 a /\
  plan_value d <= amount /\
  (reports_possible d <-> plan_value d = amount).
Proof.
  intros Hamt Hinv d.
  assert (Ha : Int.in_range amount)
    by (revert Hamt; unfold Int.in_range, Int.INT_MIN, Int.INT_MAX; lia).
  destruct (calculateDenominations_greedy amount a p0 Ha Hinv)
    as (u2000 & u500 & u200 & u100 & r & Hg & E1 & E2 & E3 & E4 & Hposs).
  destruct (greedy_pass_exact amount a Ha Hinv)
    as (v1 & v2 & v3 & v4 & r' & Hg' & Er & _ & Hpos & _).
  rewrite Hg in Hg'. injection Hg' as <- <- <- <- <-.
  apply greedy_pass_le in Hg. destruct Hg as (? & ? & ? & ?).
  destruct Hpos as (? & ? & ? & ? & ? & _); [lia|].
  subst d. unfold plan_value, reports_possible.
  rewrite E1, E2, E3, E4, Hposs.
  repeat split; try lia;
    destruct (Z.eqb_spec r 0); simpl; intros; lia.
Qed.

Lemma returned_counts_never_overpay_witness :
  plan_value (calculateDenominations 300 (mkATM 1 0 1 0) (Indet 0)) <= 300.
Proof.
  destruct (returned_counts_never_overpay 300 (mkATM 1 0 1 0) (Indet 0))
    as (_ & _ & _ & _ & H & _).
  - unfold Int.INT_MAX; lia.
  - unfold inventory_ok, Int.INT_MAX; simpl; lia.
  - exact H.
Defined.

(** X5.  [calculateDenominations] has no guard of its own against a
    negative amount: a negative multiple of 100 is reported possible, with
    counts that are all zero or negative and add up to the amount. *)
Theorem negative_amount_reported_possible amount a p0 :
  Int.in_range amount -> inventory_ok a ->
  amount < 0 -> Z.rem amount 100 = 0 ->
  let d := calculateDenominations amount a p0 in
  reports_possible d /\
  n2000 d <= 0 /\ n500 d <= 0 /\ n200 d <= 0 /\ n100 d <= 0 /\
  plan_value d = amount.
Proof.
  intros Ha Hinv Hneg Hdiv d.
  destruct (calculateDenominations_greedy amount a p0 Ha Hinv)
    as (u2000 & u500 & u200 & u100 & r & Hg & E1 & E2 & E3 & E4 & Hposs).
  destruct (greedy_pass_exact amount a Ha Hinv)
    as (v1 & v2 & v3 & v4 & r' & Hg' & Er & E100 & _ & Hn).
  rewrite Hg in Hg'. injection Hg' as <- <- <- <- <-.
  destruct (Hn Hneg) as (? & ? & ? & ? & ? & HR3).
  apply Z.rem_divide in Hdiv; [|lia]. destruct Hdiv as [m Hm].
  assert (E3' : amount - (2000 * u2000 + 500 * u500 + 200 * u200)
                = (m - (20 * u2000 + 5 * u500 + 2 * u200)) * 100) by lia.
  rewrite E3', Z.quot_mul in E100 by lia.
  destruct Hinv as (_ & _ & _ & H100).
  assert (Hr : r = 0) by lia.
  subst d. unfold plan_value, reports_possible.
  rewrite E1, E2, E3, E4, Hposs, Hr. simpl. repeat split; lia.
Qed.

Lemma negative_amount_reported_possible_witness :
  plan_of (calculateDenominations (-2300) default_atm (Indet 0))
  = (-1, 0, -1, -1) /\
  reports_possible (calculateDenominations (-2300) default_atm (Indet 0)).
Proof.
  split; [reflexivity|].
  apply (negative_amount_reported_possible (-2300) default_atm (Indet 0)).
  - unfold Int.in_range, Int.INT_MIN, Int.INT_MAX; lia.
  - unfold inventory_ok, Int.INT_MAX; simpl; lia.
  - lia.
  - reflexivity.
Defined.

(** ** withdrawCash and the cash in the machine *)

Lemma atmTotal_exact a :
  inventory_ok a ->
  atmTotal a
  = 2000 * note2000 a + 500 * note500 a + 200 * note200 a + 100 * note100 a.
Proof.
  unfold inventory_ok, Int.INT_MAX. intros (? & ? & ? & ?).
  unfold atmTotal, Int.ladd, Int.lmul.
  rewrite (IntFacts.wrap64_id (note2000 a * 2000)) by lia.
  rewrite (IntFacts.wrap64_id (note500 a * 500)) by lia.
  rewrite (IntFacts.wrap64_id (note200 a * 200)) by lia.
  rewrite (IntFacts.wrap64_id (note100 a * 100)) by lia.
  rewrite (IntFacts.wrap64_id (note2000 a * 2000 + note500 a * 500)) by lia.
  rewrite (IntFacts.wrap64_id
             (note2000 a * 2000 + note500 a * 500 + note200 a * 200)) by lia.
  rewrite IntFacts.wrap64_id by lia. lia.
Qed.

(** A plan reported possible is worth the amount (valid inventory). *)
Lemma possible_plan_sum amount a p0 :
  Int.in_range amount -> inventory_ok a ->
  reports_possible (calculateDenominations amount a p0) ->
  2000 * n2000 (calculateDenominations amount a p0)
  + 500 * n500 (calculateDenominations amount a p0)
  + 200 * n200 (calculateDenominations amount a p0)
  + 100 * n100 (calculateDenominations amount a p0) = amount.
Proof.
  intros Ha Hinv Hp.
  destruct (calculateDenominations_greedy amount a p0 Ha Hinv)
    as (u2000 & u500 & u200 & u100 & r & Hg & E1 & E2 & E3 & E4 & Hposs).
  destruct (greedy_pass_exact amount a Ha Hinv)
    as (v1 & v2 & v3 & v4 & r' & Hg' & Er & _).
  rewrite Hg in Hg'. injection Hg' as <- <- <- <- <-.
  unfold reports_possible in Hp. rewrite Hposs in Hp.
  destruct (Z.eqb_spec r 0) as [Hr|]; [|simpl in Hp; lia].
  rewrite E1, E2, E3, E4. lia.
Qed.

(** The tests a committed withdrawal has passed. *)
Lemma withdrawCash_committed_tests damount confirm garbage acc a j amount d :
  w_outcome (withdrawCash damount confirm garbage acc a j) = Committed amount d ->
  amount = Int.of_double damount /\
  d = calculateDenominations amount a (Indet garbage) /\
  Qle_bool damount 0 = false /\ Int.rem amount 100 = 0 /\
  amount <= Int.of_double (Double.plus (balance acc) Double.c0001) /\
  amount <= atmTotal a /\
  reports_possible d /\ confirm <> 0.
Proof.
  unfold withdrawCash.
  destruct (Qle_bool damount 0); [discriminate|].
  destruct (Z.eqb_spec (Int.rem (Int.of_double damount) 100) 0) as [Hm|Hm];
    cbn [negb]; [|discriminate].
  destruct (Z.gtb_spec (Int.of_double damount)
              (Int.of_double (Double.plus (balance acc) Double.c0001))); [discriminate|].
  destruct (Z.gtb_spec (Int.of_double damount) (atmTotal a)); [discriminate|].
  destruct (Z.eqb_spec (cell_val (possible (calculateDenominations
              (Int.of_double damount) a (Indet garbage)))) 0) as [Hp|Hp];
    [discriminate|].
  destruct (Z.eqb_spec confirm 0); [discriminate|].
  cbn [w_outcome]. intros [= <- <-].
  unfold reports_possible. repeat split; auto; lia.
Qed.

Lemma debit_total (c1 c2 c3 c4 d1 d2 d3 d4 amount : Z) :
  2000 * d1 + 500 * d2 + 200 * d3 + 100 * d4 = amount ->
  2000 * (c1 - d1) + 500 * (c2 - d2) + 200 * (c3 - d3) + 100 * (c4 - d4)
  = 2000 * c1 + 500 * c2 + 200 * c3 + 100 * c4 - amount.
Proof. lia. Qed.

(** The committed case of [withdrawCash] with everything that holds in it. *)
Lemma withdrawCash_committed damount confirm garbage acc a j amount d :
  inventory_ok a ->
  w_outcome (withdrawCash damount confirm garbage acc a j) = Committed amount d ->
  0 <= amount <= Int.INT_MAX /\
  2000 * n2000 d + 500 * n500 d + 200 * n200 d + 100 * n100 d = amount /\
  inventory_ok (w_atm (withdrawCash damount confirm garbage acc a j)) /\
  atmTotal (w_atm (withdrawCash damount confirm garbage acc a j))
  = atmTotal a - amount /\
  w_acc (withdrawCash damount confirm garbage acc a j)
  = set_balance (balance acc - inject_Z amount)%Q acc /\
  w_journal (withdrawCash damount confirm garbage acc a j)
  = j ++ [mkTransaction (accountNumber acc) "Withdrawal" (inject_Z amount)
            (balance acc - inject_Z amount)%Q].
Proof.
  intros Hinv Hout.
  pose proof (withdrawCash_inventory damount confirm garbage acc a j Hinv)
    as Hinv'.
  destruct (withdrawCash_committed_tests _ _ _ _ _ _ _ _ Hout)
    as (-> & -> & Hpos & Hmul & Hle & Hcash & Hp & Hc).
  pose proof (of_double_validated damount Hpos Hmul) as Hamt.
  assert (Ha : Int.in_range (Int.of_double damount))
    by (revert Hamt; unfold Int.in_range, Int.INT_MIN, Int.INT_MAX; lia).
  pose proof (possible_plan_sum _ _ _ Ha Hinv Hp) as Hval.
  destruct (withdrawCash_cases damount confirm garbage acc a j)
    as [[E _] | [[E _] | (_ & _ & [[E _] | [_ [[E _] | [[E _] |
         [[E _] | (_ & _ & E)]]]]])]];
    try (rewrite E in Hout; discriminate Hout).
  split; [exact Hamt|]. split; [exact Hval|]. split; [exact Hinv'|].
  split.
  - assert (Eatm : w_atm (withdrawCash damount confirm garbage acc a j)
                  = mkATM (Int.sub (note2000 a) (n2000 (calculateDenominations
                             (Int.of_double damount) a (Indet garbage))))
                          (Int.sub (note500 a) (n500 (calculateDenominations
                             (Int.of_double damount) a (Indet garbage))))
                          (Int.sub (note200 a) (n200 (calculateDenominations
                             (Int.of_double damount) a (Indet garbage))))
                          (Int.sub (note100 a) (n100 (calculateDenominations
                             (Int.of_double damount) a (Indet garbage)))))
      by (rewrite E; reflexivity).
    rewrite Eatm in Hinv' |- *. clear E Eatm Hout.
    destruct (inventory_debit_exact (Int.of_double damount) a (Indet garbage)
                Hamt Hinv Hp) as (E1 & E2 & E3 & E4 & _).
    rewrite (atmTotal_exact _ Hinv'), (atmTotal_exact _ Hinv).
    cbn [note2000 note500 note200 note100].
    rewrite E1, E2, E3, E4.
    apply debit_total. exact Hval.
  - rewrite E. split; reflexivity.
Qed.

(** X6.  A committed withdrawal takes out of the machine exactly what it
    takes off the account: on an inventory of non-negative counts the
    notes dispensed are worth the amount, the machine's total cash drops
    by the amount, and so does the balance. *)
Theorem committed_withdrawal_conserves_cash damount confirm garbage acc a j
    amount d :
  inventory_ok a ->
  w_outcome (withdrawCash damount confirm garbage acc a j) = Committed amount d ->
  plan_value d = amount /\
  atmTotal (w_atm (withdrawCash damount confirm garbage acc a j))
  = atmTotal a - amount /\
  balance (w_acc (withdrawCash damount confirm garbage acc a j))
  = (balance acc - inject_Z amount)%Q.
Proof.
  intros Hinv Hout.
  destruct (withdrawCash_committed _ _ _ _ _ _ _ _ Hinv Hout)
    as (_ & Hsum & _ & Htot & Hacc & _).
  split; [unfold plan_value; exact Hsum|]. split; [exact Htot|].
  rewrite Hacc. reflexivity.
Qed.

Lemma committed_withdrawal_conserves_cash_witness :
  atmTotal default_atm = 50000 /\
  atmTotal (w_atm (withdrawCash 2300 1 7
              (mkAccount 1002 2345 5000 "Anita" 0 0) default_atm []))
  = atmTotal default_atm - 2300.
Proof.
  split; [reflexivity|].
  assert (H : inventory_ok default_atm)
    by (unfold inventory_ok, Int.INT_MAX; simpl; lia).
  destruct (committed_withdrawal_conserves_cash 2300 1 7
              (mkAccount 1002 2345 5000 "Anita" 0 0) default_atm []
              2300 (mkD 1 0 1 1 (Init 1) false) H) as (_ & H2 & _).
  - reflexivity.
  - exact H2.
Defined.

(** X7.  What a committed withdrawal can be: on a non-negative balance,
    the amount is a non-negative multiple of 100, at most the machine's
    total cash and at most the double [balance + 0.0001], and the
    confirmation typed was not 0. *)
Theorem committed_amount_is_validated damount confirm garbage acc a j amount d :
  nonneg (balance acc) ->
  w_outcome (withdrawCash damount confirm garbage acc a j) = Committed amount d ->
  0 <= amount /\ Int.rem amount 100 = 0 /\ amount <= atmTotal a /\
  (inject_Z amount <= Double.plus (balance acc) Double.c0001)%Q /\ confirm <> 0.
Proof.
  unfold nonneg. intros Hnn Hout.
  destruct (withdrawCash_committed_tests _ _ _ _ _ _ _ _ Hout)
    as (-> & _ & Hpos & Hmul & Hle & Hcash & _ & Hc).
  pose proof (of_double_validated damount Hpos Hmul) as Hamt.
  repeat split; auto; try lia.
  destruct DoubleFacts.c0001_bounds as [Hc0 _].
  assert (H0 : (0 <= Double.plus (balance acc) Double.c0001)%Q)
    by (apply DoubleFacts.round_nonneg; lra).
  pose proof (of_double_le _ H0) as H1.
  assert (H2 : (inject_Z (Int.of_double damount)
                <= inject_Z (Int.of_double
                               (Double.plus (balance acc) Double.c0001)))%Q)
    by (rewrite <- Zle_Qle; exact Hle).
  lra.
Qed.

Lemma committed_amount_is_validated_witness :
  0 <= 2300 /\ Int.rem 2300 100 = 0 /\ 2300 <= atmTotal default_atm /\
  (inject_Z 2300 <= Double.plus 5000 Double.c0001)%Q /\ 1 <> 0.
Proof.
  apply (committed_amount_is_validated 2300 1 7
           (mkAccount 1002 2345 5000 "Anita" 0 0) default_atm []
           2300 (mkD 1 0 1 1 (Init 1) false)).
  - unfold nonneg, Qle. simpl. lia.
  - vm_compute. reflexivity.
Defined.

(** ** A user session and the books *)

Lemma total_balance_insert accs : forall idx acc x,
  accs !! idx = Some acc ->
  (total_balance (<[idx := x]> accs)
   == total_balance accs - balance acc + balance x)%Q.
Proof.
  induction accs as [|b accs IH]; intros idx acc x Hl; [discriminate|].
  destruct idx as [|idx]; simpl in *.
  - injection Hl as ->. ring.
  - rewrite (IH idx acc x Hl). ring.
Qed.

Lemma withdrawCash_books damount confirm garbage acc a j :
  inventory_ok a ->
  (balance (w_acc (withdrawCash damount confirm garbage acc a j))
   - inject_Z (atmTotal (w_atm (withdrawCash damount confirm garbage acc a j)))
   == balance acc - inject_Z (atmTotal a))%Q /\
  atmTotal (w_atm (withdrawCash damount confirm garbage acc a j)) <= atmTotal a.
Proof.
  intros Hinv.
  destruct (withdrawCash_cases damount confirm garbage acc a j)
    as [[E _] | [[E _] | (_ & _ & [[E _] | [_ [[E _] | [[E _] |
         [[E _] | (_ & _ & E)]]]]])]];
    try (rewrite E; cbn [w_acc w_atm]; split; [reflexivity | lia]).
  assert (Hout : w_outcome (withdrawCash damount confirm garbage acc a j)
                 = Committed (Int.of_double damount)
                     (calculateDenominations (Int.of_double damount) a
                        (Indet garbage))) by (rewrite E; reflexivity).
  destruct (withdrawCash_committed _ _ _ _ _ _ _ _ Hinv Hout)
    as (Hamt & _ & _ & Htot & Hacc & _).
  rewrite Htot, Hacc. cbn [set_balance balance]. split; [|lia].
  unfold Zminus. rewrite inject_Z_plus, inject_Z_opp. ring.
Qed.

Lemma user_step_books idx c s :
  inventory_ok (atm s) ->
  (holdings (user_step idx c s) == holdings s)%Q /\
  atmTotal (atm (user_step idx c s)) <= atmTotal (atm s) /\
  inventory_ok (atm (user_step idx c s)).
Proof.
  intros Hinv. unfold user_step.
  destruct (accounts s !! idx) as [acc|] eqn:El;
    [|split; [reflexivity|split; [lia|exact Hinv]]].
  destruct c as [|damount confirm garbage| | |];
    try (split; [reflexivity|split; [lia|exact Hinv]]).
  { split; [|split; [cbn [atm]; lia | exact Hinv]].
    unfold holdings. cbn [accounts atm]. reflexivity. }
  destruct (withdrawCash_books damount confirm garbage acc (atm s) (journal s)
              Hinv) as [Hb Hle].
  split; [|split; [exact Hle | apply withdrawCash_inventory, Hinv]].
  unfold holdings. cbn [accounts atm].
  rewrite (total_balance_insert _ idx acc _ El).
  set (w := withdrawCash damount confirm garbage acc (atm s) (journal s)) in *.
  lra.
Qed.

Lemma user_loop_books idx choices : forall s,
  inventory_ok (atm s) ->
  (holdings (user_loop idx choices s) == holdings s)%Q /\
  atmTotal (atm (user_loop idx choices s)) <= atmTotal (atm s).
Proof.
  induction choices as [|c rest IH]; intros s Hinv;
    [split; [reflexivity|cbn [user_loop]; lia]|].
  destruct (user_step_books idx c s Hinv) as (Hb & Hle & Hinv').
  destruct (IH _ Hinv') as (Hb' & Hle').
  destruct c; cbn [user_loop]; try (split; [reflexivity|lia]);
    (split; [rewrite Hb'; exact Hb | lia]).
Qed.

Lemma login_total_balance accNum pins accs :
  (total_balance (snd (login accNum pins accs)) == total_balance accs)%Q.
Proof.
  unfold login.
  destruct (findAccountIndex accNum accs) as [idx|]; [|reflexivity].
  destruct (accs !! idx) as [acc|] eqn:El; [|reflexivity].
  destruct (negb (locked acc =? 0)); [reflexivity|].
  pose proof (pin_loop_balance pins acc) as B.
  destruct (pin_loop pins acc) as [r acc']. cbn [snd] in *.
  rewrite (total_balance_insert _ idx acc acc' El), B. ring.
Qed.

(** X8.  Over a whole user session -- login, then any inquiries and
    withdrawals -- the sum of all balances minus the machine's total cash
    does not change, and the machine's total cash never grows: every
    unit that leaves an account leaves the machine as notes. *)
Theorem user_session_keeps_the_books accNum pins session s :
  inventory_ok (atm s) ->
  (holdings (main_step (UserLogin accNum pins session) s) == holdings s)%Q /\
  atmTotal (atm (main_step (UserLogin accNum pins session) s))
  <= atmTotal (atm s).
Proof.
  intros Hinv. cbn [main_step].
  pose proof (login_total_balance accNum pins (accounts s)) as Hl.
  destruct (login accNum pins (accounts s)) as [r accs]. cbn [snd] in Hl.
  assert (Hs1 : (holdings (mkSystem accs (atm s) (journal s)) == holdings s)%Q)
    by (unfold holdings; cbn [accounts atm]; rewrite Hl; reflexivity).
  destruct r; try (split; [exact Hs1 | cbn [atm]; lia]).
  destruct (user_loop_books idx session (mkSystem accs (atm s) (journal s)) Hinv)
    as [Hb Hle].
  split; [rewrite Hb; exact Hs1 | exact Hle].
Qed.

Lemma user_session_keeps_the_books_witness :
  Qeq (holdings initial_system) (40000 - 50000) /\
  Qeq (holdings (main_step (UserLogin 1002 [2345]
                   [BalanceInquiry; CashWithdrawal 2300 1 7;
                    CashWithdrawal 700 1 0; Logout]) initial_system))
      (holdings initial_system).
Proof.
  split; [reflexivity|].
  apply (user_session_keeps_the_books 1002 [2345]
           [BalanceInquiry; CashWithdrawal 2300 1 7; CashWithdrawal 700 1 0;
            Logout] initial_system).
  unfold inventory_ok, Int.INT_MAX; simpl; lia.
Defined.

(** ** The journal *)

Lemma withdrawCash_journal damount confirm garbage acc a j :
  exists added,
    w_journal (withdrawCash damount confirm garbage acc a j) = j ++ added /\
    Forall journal_line_ok added.
Proof.
  destruct (withdrawCash_cases damount confirm garbage acc a j)
    as [[E _] | [[E _] | (Hpos & Hmul & [[E _] | [_ [[E _] | [[E _] |
         [[E _] | (_ & _ & E)]]]]])]];
    try (exists []; rewrite E; cbn [w_journal];
         split; [symmetry; apply app_nil_r | constructor]).
  eexists. rewrite E. cbn [w_journal recordTransaction].
  split; [reflexivity|]. constructor; [|constructor].
  right. cbn [t_type t_amount]. split; [reflexivity|].
  exists (Int.of_double damount).
  pose proof (of_double_validated damount Hpos Hmul).
  repeat split; auto; lia.
Qed.

Lemma user_loop_journal idx choices : forall s,
  exists added,
    journal (user_loop idx choices s) = journal s ++ added /\
    Forall journal_line_ok added.
Proof.
  induction choices as [|c rest IH]; intros s.
  - exists []. split; [symmetry; apply app_nil_r | constructor].
  - assert (Hstep : exists added,
              journal (user_step idx c s) = journal s ++ added /\
              Forall journal_line_ok added).
    { unfold user_step. destruct (accounts s !! idx) as [acc|];
        [|exists []; split; [symmetry; apply app_nil_r | constructor]].
      destruct c as [|damount confirm garbage| | |];
        try (exists []; split; [symmetry; apply app_nil_r | constructor]).
      - eexists. cbn [journal showBalance recordTransaction].
        split; [reflexivity|]. constructor; [|constructor].
        left. split; reflexivity.
      - cbn [journal]. apply withdrawCash_journal. }
    destruct Hstep as (add1 & E1 & F1).
    destruct (IH (user_step idx c s)) as (add2 & E2 & F2).
    destruct c; cbn [user_loop];
      try (exists (add1 ++ add2); rewrite E2, E1, app_assoc;
           split; [reflexivity | apply Forall_app; split; assumption]).
    exists []. split; [symmetry; apply app_nil_r | constructor].
Qed.

Lemma admin_loop_journal choices : forall s,
  journal (admin_loop choices s) = journal s.
Proof.
  induction choices as [|c rest IH]; intros s; [reflexivity|].
  destruct c; cbn [admin_loop]; try reflexivity; rewrite IH; reflexivity.
Qed.

Lemma main_step_journal c s :
  exists added,
    journal (main_step c s) = journal s ++ added /\
    Forall journal_line_ok added.
Proof.
  destruct c as [accNum pins session|p choices| |]; cbn [main_step];
    try (exists []; split; [symmetry; apply app_nil_r | constructor]).
  - destruct (login accNum pins (accounts s)) as [r accs].
    destruct r;
      try (exists []; split; [symmetry; apply app_nil_r | constructor]).
    apply (user_loop_journal idx session (mkSystem accs (atm s) (journal s))).
  - exists []. split; [|constructor]. rewrite app_nil_r.
    unfold adminMenu. destruct (negb _); [reflexivity|].
    apply admin_loop_journal.
Qed.

(** X9.  The journal only grows: whatever is typed at the menus, the
    journal afterwards is the journal before with lines added at the end,
    and every added line is either a balance inquiry with amount 0 or a
    withdrawal whose amount is a non-negative multiple of 100. *)
Theorem journal_only_grows script s :
  exists added,
    journal (main_loop script s) = journal s ++ added /\
    Forall journal_line_ok added.
Proof.
  revert s. induction script as [|c rest IH]; intros s.
  - exists []. split; [symmetry; apply app_nil_r | constructor].
  - destruct (main_step_journal c s) as (add1 & E1 & F1).
    destruct (IH (main_step c s)) as (add2 & E2 & F2).
    destruct c; cbn [main_loop];
      try (exists (add1 ++ add2); rewrite E2, E1, app_assoc;
           split; [reflexivity | apply Forall_app; split; assumption]).
    exists []. split; [symmetry; apply app_nil_r | constructor].
Qed.

(** ** Accounts through login, sessions and the admin menu *)

(** The two ways [login] ends: without touching anything, or after the
    PIN loop has run on the open account found for the number. *)
Lemma login_cases accNum pins accs :
  (login accNum pins accs = (AccountNotFound, accs) /\
   findAccountIndex accNum accs = None) \/
  (exists idx acc,
     findAccountIndex accNum accs = Some idx /\ accs !! idx = Some acc /\
     accountNumber acc = accNum /\
     ((locked acc <> 0 /\ login accNum pins accs = (AccountLocked, accs)) \/
      (locked acc = 0 /\
       login accNum pins accs
       = (match fst (pin_loop pins acc) with
          | Some true => LoginOk idx
          | Some false => LockedOut
          | None => AwaitingPin
          end, <[idx := snd (pin_loop pins acc)]> accs)))).
Proof.
  destruct (findAccountIndex accNum accs) as [idx|] eqn:Hf.
  - right. pose proof Hf as Hf'. apply findAccountIndex_Some in Hf'.
    destruct Hf' as (acc & Hl & Hn & _). exists idx, acc.
    split; [reflexivity|]. split; [exact Hl|]. split; [exact Hn|].
    unfold login. rewrite Hf, Hl.
    destruct (Z.eqb_spec (locked acc) 0) as [H0|H0]; cbn [negb].
    + right. split; [exact H0|]. destruct (pin_loop pins acc); reflexivity.
    + left. split; [exact H0 | reflexivity].
  - left. unfold login. rewrite Hf. split; reflexivity.
Qed.


Lemma pin_loop_consistent pins : forall acc,
  locked acc = 0 -> 0 <= loginAttempts acc < 3 ->
  lock_consistent (snd (pin_loop pins acc)).
Proof.
  induction pins as [|p rest IH]; intros acc Hl Hc; cbn [pin_loop].
  - left. auto.
  - destruct (p =? pin acc); [left; cbn; split; [exact Hl | lia]|].
    cbn [set_loginAttempts loginAttempts].
    rewrite (IntFacts.add_exact (loginAttempts acc) 1)
      by (unfold Int.in_range, Int.INT_MIN, Int.INT_MAX; lia).
    rewrite IntFacts.sub_exact
      by (unfold Int.in_range, Int.INT_MIN, Int.INT_MAX; lia).
    destruct (Z.gtb_spec (3 - (loginAttempts acc + 1)) 0).
    + apply IH; cbn; [exact Hl | lia].
    + right. cbn. split; [reflexivity | lia].
Qed.


Lemma user_step_other idx c s j :
  j <> idx -> accounts (user_step idx c s) !! j = accounts s !! j.
Proof.
  intros Hj. unfold user_step. destruct (accounts s !! idx); [|reflexivity].
  destruct c; try reflexivity. cbn [accounts].
  apply list_lookup_insert_ne. auto.
Qed.

Lemma user_loop_other idx choices j : forall s,
  j <> idx -> accounts (user_loop idx choices s) !! j = accounts s !! j.
Proof.
  induction choices as [|c rest IH]; intros s Hj; [reflexivity|].
  destruct c; cbn [user_loop]; try reflexivity;
    rewrite IH by exact Hj; apply user_step_other; exact Hj.
Qed.


Lemma login_consistent accNum pins accs :
  Forall lock_consistent accs ->
  Forall lock_consistent (snd (login accNum pins accs)).
Proof.
  intros H.
  destruct (login_cases accNum pins accs)
    as [[-> _] | (idx & acc & _ & Hl & _ & [[_ ->] | [H0 ->]])];
    cbn [snd]; try exact H.
  apply Forall_insert; [exact H|].
  destruct (Forall_lookup_1 _ _ _ _ H Hl) as [[_ Hc] | [H1 _]]; [|lia].
  apply pin_loop_consistent; assumption.
Qed.

Lemma unlock_consistent accn accs :
  Forall lock_consistent accs -> Forall lock_consistent (unlock accn accs).
Proof.
  intros H. unfold unlock.
  destruct (findAccountIndex accn accs) as [idx|]; [|exact H].
  destruct (accs !! idx) as [acc|]; [|exact H].
  apply Forall_insert; [exact H|]. left. cbn. lia.
Qed.

Lemma user_loop_consistent idx choices : forall s,
  Forall lock_consistent (accounts s) ->
  Forall lock_consistent (accounts (user_loop idx choices s)).
Proof.
  induction choices as [|c rest IH]; intros s H; [exact H|].
  assert (Hstep : Forall lock_consistent (accounts (user_step idx c s))).
  { unfold user_step. destruct (accounts s !! idx) as [acc|] eqn:Hl; [|exact H].
    destruct c as [|damount confirm garbage| | |]; try exact H.
    cbn [accounts]. apply Forall_insert; [exact H|].
    pose proof (Forall_lookup_1 _ _ _ _ H Hl) as Hc.
    destruct (withdrawCash_account damount confirm garbage acc (atm s)
                (journal s)) as [-> | (amount & _ & _ & ->)]; exact Hc. }
  destruct c; cbn [user_loop]; try exact H; apply IH; exact Hstep.
Qed.

Lemma admin_loop_consistent choices : forall s,
  Forall lock_consistent (accounts s) ->
  Forall lock_consistent (accounts (admin_loop choices s)).
Proof.
  induction choices as [|c rest IH]; intros s H; [exact H|].
  destruct c; cbn [admin_loop]; try exact H; apply IH; cbn [admin_step accounts];
    try exact H.
  apply unlock_consistent, H.
Qed.

(** X10.  The lock flag follows the counter.  If every account is either
    open with fewer than 3 mismatches counted or locked with exactly 3,
    this is still so after anything typed at the menus: the flag is set
    exactly when the counter has reached 3, and every way of clearing the
    flag clears the counter with it. *)
Theorem lock_flag_follows_counter script s :
  Forall lock_consistent (accounts s) ->
  Forall lock_consistent (accounts (main_loop script s)).
Proof.
  revert s. induction script as [|c rest IH]; intros s H; [exact H|].
  assert (Hstep : Forall lock_consistent (accounts (main_step c s))).
  { destruct c as [accNum pins session|p choices| |]; cbn [main_step];
      try exact H.
    - pose proof (login_consistent accNum pins (accounts s) H) as L.
      destruct (login accNum pins (accounts s)) as [r accs]. cbn [snd] in L.
      destruct r; try exact L.
      apply (user_loop_consistent idx session
               (mkSystem accs (atm s) (journal s))). exact L.
    - unfold adminMenu. destruct (negb _); [exact H|].
      apply admin_loop_consistent, H. }
  destruct c; cbn [main_loop]; try exact H; apply IH; exact Hstep.
Qed.

Lemma lock_flag_follows_counter_witness :
  Forall lock_consistent sample_accounts /\
  Forall lock_consistent
    (accounts (main_loop [UserLogin 1001 [1; 2; 3] [];
                          UserLogin 1002 [7; 2345] [Logout];
                          AdminMenu 999999 [UnlockAccount 1001; ExitAdmin];
                          ExitSystem] initial_system)).
Proof.
  assert (H : Forall lock_consistent sample_accounts)
    by (do 3 (constructor; [left; cbn; lia|]); constructor).
  split; [exact H|].
  apply (lock_flag_follows_counter
           [UserLogin 1001 [1; 2; 3] []; UserLogin 1002 [7; 2345] [Logout];
            AdminMenu 999999 [UnlockAccount 1001; ExitAdmin]; ExitSystem]
           initial_system).
  exact H.
Defined.

(** X11.  Nothing a user can type unlocks or otherwise changes a locked
    account: a main-menu login, for whatever account number, with whatever
    PINs and session commands, leaves every locked account exactly as it
    was. *)
Theorem locked_account_untouched_by_users accNum pins session s j acc :
  accounts s !! j = Some acc -> locked acc <> 0 ->
  accounts (main_step (UserLogin accNum pins session) s) !! j = Some acc.
Proof.
  intros Hj Hlock. cbn [main_step].
  destruct (login_cases accNum pins (accounts s))
    as [[-> _] | (idx & a & _ & Hl & _ & [[_ ->] | [H0 ->]])];
    try exact Hj.
  assert (Hne : j <> idx) by (intros ->; congruence).
  assert (Hins : <[idx := snd (pin_loop pins a)]> (accounts s) !! j = Some acc)
    by (rewrite list_lookup_insert_ne by auto; exact Hj).
  destruct (fst (pin_loop pins a)) as [[|]|]; try exact Hins.
  rewrite user_loop_other by exact Hne. exact Hins.
Qed.

Lemma locked_account_untouched_by_users_witness :
  accounts (main_step (UserLogin 1001 [1234] [CashWithdrawal 500 1 0; Logout])
              (mkSystem [mkAccount 1001 1234 15000 "Zaid" 3 1] default_atm []))
    !! 0%nat
  = Some (mkAccount 1001 1234 15000 "Zaid" 3 1).
Proof.
  apply (locked_account_untouched_by_users 1001 [1234]
           [CashWithdrawal 500 1 0; Logout]
           (mkSystem [mkAccount 1001 1234 15000 "Zaid" 3 1] default_atm [])
           0%nat (mkAccount 1001 1234 15000 "Zaid" 3 1)).
  - reflexivity.
  - cbn. lia.
Defined.





(** X14.  The right PIN opens an open account: for an account that is not
    locked, fewer mismatches than the counter has room for, followed by
    the right PIN, log in; the counter is back at 0 and nothing else in
    the table has changed. *)
Theorem right_pin_logs_in accNum accs idx acc wrong rest :
  findAccountIndex accNum accs = Some idx -> accs !! idx = Some acc ->
  locked acc = 0 -> 0 <= loginAttempts acc ->
  loginAttempts acc + Z.of_nat (length wrong) < 3 ->
  Forall (fun p => p <> pin acc) wrong ->
  login accNum (wrong ++ pin acc :: rest) accs
  = (LoginOk idx, <[idx := set_loginAttempts 0 acc]> accs).
Proof.
  intros Hf Hl Hlock Hc Hlen Hwrong.
  unfold login. rewrite Hf, Hl, Hlock. cbn [Z.eqb negb].
  rewrite pin_loop_success by assumption. reflexivity.
Qed.

Lemma right_pin_logs_in_witness :
  login 1002 [7; 8; 2345; 99] sample_accounts = (LoginOk 1, sample_accounts).
Proof.
  apply (right_pin_logs_in 1002 sample_accounts 1%nat
           (mkAccount 1002 2345 5000 "Anita" 0 0) [7; 8] [99]).
  - reflexivity.
  - reflexivity.
  - reflexivity.
  - cbn; lia.
  - cbn; lia.
  - repeat constructor; cbn; lia.
Defined.

Lemma unlock_cases accn accs :
  (findAccountIndex accn accs = None /\ unlock accn accs = accs) \/
  (exists idx acc,
     findAccountIndex accn accs = Some idx /\ accs !! idx = Some acc /\
     accountNumber acc = accn /\
     unlock accn accs = <[idx := unlocked acc]> accs).
Proof.
  unfold unlock.
  destruct (findAccountIndex accn accs) as [idx|] eqn:Hf; [|left; auto].
  pose proof Hf as Hf'. apply findAccountIndex_Some in Hf'.
  destruct Hf' as (acc & Hl & Hn & _).
  right. exists idx, acc. rewrite Hl. auto.
Qed.

Lemma unlock_same_holder accn accs j acc' :
  unlock accn accs !! j = Some acc' ->
  exists acc, accs !! j = Some acc /\ same_holder acc acc' /\
    (accountNumber acc <> accn -> acc' = acc).
Proof.
  destruct (unlock_cases accn accs)
    as [[_ ->] | (idx & a & _ & Hl & Hn & ->)].
  - intros H. exists acc'. unfold same_holder. repeat split; auto.
  - destruct (decide (j = idx)) as [->|Hne].
    + rewrite list_lookup_insert_eq by (eapply lookup_lt_Some; exact Hl).
      intros [= <-]. exists a. split; [exact Hl|].
      split; [unfold same_holder; cbn; repeat split; auto | congruence].
    + rewrite list_lookup_insert_ne by auto.
      intros H. exists acc'. unfold same_holder. repeat split; auto.
Qed.

(** X15.  The administrative unlock changes the lock flag and the
    counter of the first account with the number given, and nothing else:
    every account keeps its number, PIN, balance and name, accounts with
    another number are untouched, an unknown number changes nothing, and
    unlocking twice is the same as unlocking once. *)
Theorem unlock_changes_only_the_lock accn accs :
  (findAccountIndex accn accs = None -> unlock accn accs = accs) /\
  length (unlock accn accs) = length accs /\
  (forall j acc', unlock accn accs !! j = Some acc' ->
     exists acc, accs !! j = Some acc /\ same_holder acc acc' /\
       (accountNumber acc <> accn -> acc' = acc)) /\
  unlock accn (unlock accn accs) = unlock accn accs.
Proof.
  split; [|split; [|split]].
  - intros Hnone. unfold unlock. rewrite Hnone. reflexivity.
  - destruct (unlock_cases accn accs) as [[_ ->] | (idx & a & _ & _ & _ & ->)];
      [reflexivity | apply length_insert].
  - intros j acc'. apply unlock_same_holder.
  - destruct (unlock_cases accn accs)
      as [[_ E] | (idx & a & Hf & Hl & Hn & E)]; rewrite E; [exact E|].
    unfold unlock at 1.
    rewrite (findAccountIndex_insert accn accs idx (unlocked a) Hf Hn).
    rewrite list_lookup_insert_eq by (eapply lookup_lt_Some; exact Hl).
    apply list_insert_insert_eq.
Qed.




(** ** Text: printing and reading numbers *)

Module TextFacts.

Import Text.

Lemma digit_of_char d : 0 <= d < 10 -> digit_of (digit_char d) = Some d.
Proof.
  intros H.
  assert (C : d = 0 \/ d = 1 \/ d = 2 \/ d = 3 \/ d = 4 \/ d = 5 \/ d = 6 \/
              d = 7 \/ d = 8 \/ d = 9) by lia.
  repeat (destruct C as [-> | C]; [reflexivity|]). subst. reflexivity.
Qed.


(** A digit is neither white space nor a sign nor a line end. *)
Lemma digit_is_not c d :
  digit_of c = Some d ->
  is_space c = false /\ Ascii.eqb c "-" = false /\ Ascii.eqb c "+" = false /\
  Ascii.eqb c " " = false /\ Ascii.eqb c tab = false /\ Ascii.eqb c nl = false.
Proof.
  unfold digit_of, is_space.
  destruct ((48 <=? code c) && (code c <=? 57)) eqn:E; [|discriminate].
  intros _. apply andb_true_iff in E. destruct E as [E1 E2].
  apply Z.leb_le in E1, E2.
  assert (N : forall k : ascii, code k < 48 -> Ascii.eqb c k = false).
  { intros k Hk. apply Ascii.eqb_neq. intros ->. lia. }
  split.
  - destruct (Z.eqb_spec (code c) 32); [lia|].
    destruct (Z.leb_spec (code c) 13); [lia|]. rewrite andb_false_r. reflexivity.
  - repeat split; apply N; vm_compute; reflexivity.
Qed.

Lemma mod10 n : 0 <= n mod 10 < 10.
Proof. apply Z.mod_pos_bound. lia. Qed.

(** Reading back what [digits] wrote continues from [v * 10^k + n]. *)
Lemma scan_digits_digits fuel : forall n acc v,
  0 <= n < 10 ^ Z.of_nat fuel ->
  exists k, 0 <= k /\
    scan_digits v (digits fuel n acc) = scan_digits (v * 10 ^ k + n) acc.
Proof.
  induction fuel as [|f IH]; intros n acc v Hn.
  - exists 0. split; [lia|]. cbn [digits]. f_equal.
    change (10 ^ Z.of_nat 0) with 1 in Hn. lia.
  - cbn [digits]. destruct (Z.ltb_spec n 10) as [Hlt|Hge].
    + exists 1. split; [lia|]. cbn [scan_digits].
      rewrite digit_of_char by apply mod10.
      rewrite Z.mod_small by lia. f_equal. lia.
    + destruct (IH (n / 10) (String (digit_char (n mod 10)) acc) v)
        as (k & Hk & E).
      { rewrite Nat2Z.inj_succ, Z.pow_succ_r in Hn by lia.
        split; [apply Z.div_pos; lia|].
        apply Z.div_lt_upper_bound; lia. }
      exists (k + 1). split; [lia|]. rewrite E. cbn [scan_digits].
      rewrite digit_of_char by apply mod10. f_equal.
      rewrite Z.pow_add_r by lia.
      pose proof (Z.div_mod n 10). lia.
Qed.

Lemma digits_head fuel : forall n acc,
  (0 < fuel)%nat ->
  exists c r d, digits fuel n acc = String c r /\ digit_of c = Some d.
Proof.
  induction fuel as [|f IH]; intros n acc Hf; [lia|].
  cbn [digits]. destruct (n <? 10).
  - eexists _, _, _. split; [reflexivity|]. apply digit_of_char, mod10.
  - destruct f as [|f].
    + cbn [digits]. eexists _, _, _. split; [reflexivity|].
      apply digit_of_char, mod10.
    + apply IH. lia.
Qed.

Lemma digits_app fuel : forall n acc rest,
  String.append (digits fuel n acc) rest = digits fuel n (String.append acc rest).
Proof.
  induction fuel as [|f IH]; intros n acc rest; cbn [digits]; [reflexivity|].
  destruct (n <? 10); [reflexivity|]. rewrite IH. reflexivity.
Qed.



Lemma scan_digits_stop v s : no_digit_ahead s -> scan_digits v s = (v, s).
Proof. destruct s as [|c r]; cbn; [reflexivity|]. intros ->. reflexivity. Qed.

Lemma scan_number_digits n rest :
  0 <= n < 10 ^ 20 -> no_digit_ahead rest ->
  scan_number (digits 20 n rest) = Some (n, rest) /\
  scan_number (String "-" (digits 20 n rest)) = Some (- n, rest).
Proof.
  intros Hn Hrest.
  destruct (scan_digits_digits 20 n rest 0) as (k & _ & E); [exact Hn|].
  rewrite Z.mul_0_l, Z.add_0_l, (scan_digits_stop _ _ Hrest) in E.
  destruct (digits_head 20 n rest) as (c & r & d & Eh & Ed); [lia|].
  rewrite Eh in E |- *. cbn [scan_digits] in E. rewrite Ed in E.
  rewrite Z.mul_0_r, Z.add_0_l in E.
  destruct (digit_is_not c d Ed) as (Hs & Hm & Hp & _).
  split.
  - unfold scan_number. cbn [skip_ws]. rewrite Hs, Hm, Hp, Ed, E. reflexivity.
  - unfold scan_number. cbn [skip_ws is_space code]. cbn [Ascii.eqb].
    change (is_space "-") with false. cbn iota.
    change (Ascii.eqb "-" "-") with true. cbn iota.
    rewrite Ed, E. reflexivity.
Qed.

(** Reading what [%d] or [%ld] printed gives the number back. *)
Lemma scan_number_print z rest :
  - 2 ^ 63 <= z <= 2 ^ 63 - 1 -> no_digit_ahead rest ->
  scan_number (String.append (print_int z) rest) = Some (z, rest).
Proof.
  intros Hz Hrest. unfold print_int.
  destruct (Z.ltb_spec z 0).
  - cbn [String.append]. rewrite digits_app. cbn [String.append].
    destruct (scan_number_digits (- z) rest) as [_ E]; [lia | exact Hrest|].
    rewrite E. f_equal. f_equal. lia.
  - rewrite digits_app. cbn [String.append].
    destruct (scan_number_digits z rest) as [E _]; [lia | exact Hrest|].
    exact E.
Qed.

Lemma to_long_id z : - 2 ^ 63 <= z <= 2 ^ 63 - 1 -> to_long z = z.
Proof. unfold to_long. lia. Qed.

Lemma scan_int_print z rest :
  Int.in_range z -> no_digit_ahead rest ->
  scan_int (String.append (print_int z) rest) = Some (z, rest).
Proof.
  unfold Int.in_range, Int.INT_MIN, Int.INT_MAX. intros Hz Hrest.
  unfold scan_int. rewrite scan_number_print by (auto; lia).
  unfold long_to_int. rewrite to_long_id by lia.
  rewrite IntFacts.wrap_id
    by (unfold Int.in_range, Int.INT_MIN, Int.INT_MAX; lia).
  reflexivity.
Qed.

Lemma scan_int_space s : scan_int (String " " s) = scan_int s.
Proof. reflexivity. Qed.

End TextFacts.

(** ** The inventory file *)

(** X18.  Saving and loading the inventory is a round trip: for four
    counts of type [int], negative ones included, [loadATM] on the file
    [saveATM] wrote gives back exactly the inventory saved. *)
Theorem inventory_file_round_trip a :
  Int.in_range (note2000 a) -> Int.in_range (note500 a) ->
  Int.in_range (note200 a) -> Int.in_range (note100 a) ->
  Text.loadATM (Some (Text.saveATM a)) = a.
Proof.
  intros H1 H2 H3 H4. unfold Text.loadATM, Text.saveATM.
  rewrite TextFacts.scan_int_print by (auto; reflexivity).
  rewrite TextFacts.scan_int_space.
  rewrite TextFacts.scan_int_print by (auto; reflexivity).
  rewrite TextFacts.scan_int_space.
  rewrite TextFacts.scan_int_print by (auto; reflexivity).
  rewrite TextFacts.scan_int_space.
  rewrite TextFacts.scan_int_print by (auto; reflexivity).
  destruct a; reflexivity.
Qed.

Lemma inventory_file_round_trip_witness :
  Text.saveATM (mkATM 9 20 49 (-3)) = String.append "9 20 49 -3"
                                        (String Text.nl EmptyString) /\
  Text.loadATM (Some (Text.saveATM (mkATM 9 20 49 (-3)))) = mkATM 9 20 49 (-3).
Proof.
  split; [reflexivity|].
  apply (inventory_file_round_trip (mkATM 9 20 49 (-3)));
    unfold Int.in_range, Int.INT_MIN, Int.INT_MAX; simpl; lia.
Defined.

(** X19.  A missing or short inventory file gives the whole default
    inventory 10/20/50/100: when the file cannot be opened, when it is
    empty, and when it holds one, two or three numbers, in which case the
    numbers that were read are not kept. *)
Theorem short_inventory_file_gives_defaults a b c :
  Int.in_range a -> Int.in_range b -> Int.in_range c ->
  Text.loadATM None = default_atm /\
  Text.loadATM (Some EmptyString) = default_atm /\
  Text.loadATM (Some (String.append (Text.print_int a)
                        (String Text.nl EmptyString))) = default_atm /\
  Text.loadATM (Some (String.append (Text.print_int a) (String " "
                        (String.append (Text.print_int b)
                           (String Text.nl EmptyString))))) = default_atm /\
  Text.loadATM (Some (String.append (Text.print_int a) (String " "
                        (String.append (Text.print_int b) (String " "
                           (String.append (Text.print_int c)
                              (String Text.nl EmptyString))))))) = default_atm.
Proof.
  intros Ha Hb Hc. unfold Text.loadATM.
  split; [reflexivity|]. split; [reflexivity|].
  split; [|split].
  - rewrite TextFacts.scan_int_print by (auto; reflexivity). reflexivity.
  - rewrite TextFacts.scan_int_print by (auto; reflexivity).
    rewrite TextFacts.scan_int_space.
    rewrite TextFacts.scan_int_print by (auto; reflexivity). reflexivity.
  - rewrite TextFacts.scan_int_print by (auto; reflexivity).
    rewrite TextFacts.scan_int_space.
    rewrite TextFacts.scan_int_print by (auto; reflexivity).
    rewrite TextFacts.scan_int_space.
    rewrite TextFacts.scan_int_print by (auto; reflexivity). reflexivity.
Qed.

Lemma short_inventory_file_gives_defaults_witness :
  Text.loadATM (Some (String.append "7 8 9" (String Text.nl EmptyString)))
  = default_atm.
Proof.
  destruct (short_inventory_file_gives_defaults 7 8 9)
    as (_ & _ & _ & _ & H);
    try (unfold Int.in_range, Int.INT_MIN, Int.INT_MAX; lia).
  exact H.
Defined.

(** ** Reading a number from the terminal *)

Module ScanFacts.

Import Text.




Lemma length_app s1 s2 :
  String.length (String.append s1 s2)
  = (String.length s1 + String.length s2)%nat.
Proof. induction s1 as [|c r IH]; cbn; [reflexivity|]. rewrite IH. reflexivity. Qed.




Lemma take_line_typed line : forall room rest,
  plain line = true -> (String.length line < room)%nat ->
  take_line room (String.append line (String nl rest))
  = (String.append line (String nl EmptyString), rest).
Proof.
  induction line as [|c r IH]; intros room rest Hp Hlen.
  - destruct room; [cbn in Hlen; lia|]. reflexivity.
  - destruct room; [cbn in Hlen; lia|]. cbn [plain] in Hp.
    apply andb_true_iff in Hp. destruct Hp as [Hc Hr].
    apply andb_true_iff in Hc. destruct Hc as [Hnl _].
    apply negb_true_iff in Hnl.
    cbn [String.append take_line]. rewrite Hnl.
    rewrite IH by (auto; cbn in Hlen; lia). reflexivity.
Qed.

Lemma fgets_typed line rest :
  typed_line line ->
  fgets (String.append line (String nl rest))
  = Some (String.append line (String nl EmptyString), rest).
Proof.
  intros [Hp Hlen]. unfold fgets.
  rewrite <- (take_line_typed line 255 rest Hp Hlen).
  destruct line; reflexivity.
Qed.

Lemma c_str_plain line :
  plain line = true ->
  c_str (String.append line (String nl EmptyString))
  = String.append line (String nl EmptyString).
Proof.
  induction line as [|c r IH]; intros Hp; [reflexivity|].
  cbn [plain] in Hp. apply andb_true_iff in Hp. destruct Hp as [Hc Hr].
  apply andb_true_iff in Hc. destruct Hc as [_ Hnul].
  apply negb_true_iff in Hnul.
  cbn [String.append c_str]. rewrite Hnul, IH by exact Hr. reflexivity.
Qed.

Lemma skip_blanks_lead lead s :
  blank lead = true -> skip_blanks (String.append lead s) = skip_blanks s.
Proof.
  induction lead as [|c r IH]; cbn [blank String.append]; [reflexivity|].
  intros H. apply andb_true_iff in H. destruct H as [Hc Hr].
  cbn [skip_blanks]. rewrite Hc. auto.
Qed.



Lemma skip_ws_white s : white s = true -> skip_ws s = EmptyString.
Proof.
  induction s as [|c r IH]; cbn [white skip_ws]; [reflexivity|].
  intros H. apply andb_true_iff in H. destruct H as [-> Hr]. auto.
Qed.


End ScanFacts.

Module LoopFacts.

Import Text.


Lemma take_line_rest_le room : forall s,
  (String.length (snd (take_line room s)) <= String.length s)%nat.
Proof.
  induction room as [|room IH]; intros s; [reflexivity|].
  destruct s as [|c r]; [reflexivity|]. cbn [take_line].
  destruct (Ascii.eqb c nl); [cbn; lia|].
  specialize (IH r). destruct (take_line room r) as [l rest]. cbn in *. lia.
Qed.

Lemma take_line_rest_lt room c r :
  (String.length (snd (take_line (S room) (String c r)))
   < String.length (String c r))%nat.
Proof.
  cbn [take_line]. destruct (Ascii.eqb c nl); [cbn; lia|].
  pose proof (take_line_rest_le room r) as H.
  destruct (take_line room r) as [l rest']. cbn in *. lia.
Qed.

Lemma fgets_rest_shorter stdin buf rest :
  fgets stdin = Some (buf, rest) ->
  (String.length rest < String.length stdin)%nat.
Proof.
  unfold fgets. destruct stdin as [|c r]; [discriminate|].
  intros E. pose proof (take_line_rest_lt 254 c r) as H.
  change (S 254) with 255%nat in H.
  assert (E' : take_line 255 (String c r) = (buf, rest)) by congruence.
  rewrite E' in H. exact H.
Qed.

(** Fuel beyond the length of the input makes no difference. *)
Lemma loop_fuel f1 : forall f2 stdin,
  (String.length stdin < f1)%nat -> (String.length stdin < f2)%nat ->
  safeScanInt_loop f1 stdin = safeScanInt_loop f2 stdin.
Proof.
  induction f1 as [|f1 IH]; intros f2 stdin H1 H2; [lia|].
  destruct f2 as [|f2]; [lia|]. cbn [safeScanInt_loop].
  destruct (fgets stdin) as [[buf rest]|] eqn:E; [|reflexivity].
  apply fgets_rest_shorter in E.
  destruct (is_empty_line (c_str buf)); [apply IH; lia|].
  destruct (lone_integer (c_str buf)); [reflexivity|apply IH; lia].
Qed.

Lemma take_line_white room : forall s,
  white s = true ->
  white (fst (take_line room s)) = true /\ white (snd (take_line room s)) = true.
Proof.
  induction room as [|room IH]; intros s Hs; [auto|].
  destruct s as [|c r]; [auto|]. cbn [white] in Hs.
  apply andb_true_iff in Hs. destruct Hs as [Hc Hr]. cbn [take_line].
  destruct (Ascii.eqb c nl); [cbn; rewrite Hc; auto|].
  destruct (IH r Hr) as [H1 H2]. destruct (take_line room r) as [l rest].
  cbn in *. rewrite Hc. auto.
Qed.

Lemma c_str_white s : white s = true -> white (c_str s) = true.
Proof.
  induction s as [|c r IH]; cbn [white c_str]; [reflexivity|].
  intros H. apply andb_true_iff in H. destruct H as [Hc Hr].
  destruct (Ascii.eqb c nul); [reflexivity|]. cbn. rewrite Hc. auto.
Qed.

Lemma lone_integer_white s : white s = true -> lone_integer s = None.
Proof.
  intros H. unfold lone_integer, scan_number.
  rewrite (ScanFacts.skip_ws_white s H). reflexivity.
Qed.

Lemma loop_white fuel : forall stdin,
  white stdin = true -> safeScanInt_loop fuel stdin = None.
Proof.
  induction fuel as [|f IH]; intros stdin H; [reflexivity|].
  cbn [safeScanInt_loop]. unfold fgets.
  destruct stdin as [|c r] eqn:Es; [reflexivity|]. rewrite <- Es in *.
  destruct (take_line_white 255 stdin H) as [Hb Hr].
  destruct (take_line 255 stdin) as [buf rest]. cbn [fst snd] in *.
  rewrite (lone_integer_white _ (c_str_white _ Hb)).
  destruct (is_empty_line (c_str buf)); apply IH; exact Hr.
Qed.

End LoopFacts.



(** X21.  [safeScanInt] asks again after a line it cannot use: a line
    of blanks and tabs only, or one that is not a lone integer (the
    [sscanf] test fails), is dropped, and the result is that of reading on
    from the next line. *)
Theorem safeScanInt_skips_unusable_lines line rest :
  Text.typed_line line ->
  Text.blank line = true \/
  Text.lone_integer (String.append line (String Text.nl EmptyString)) = None ->
  Text.safeScanInt (String.append line (String Text.nl rest))
  = Text.safeScanInt rest.
Proof.
  intros Htyped Hbad. unfold Text.safeScanInt at 1.
  cbn [Text.safeScanInt_loop].
  rewrite (ScanFacts.fgets_typed line rest Htyped).
  rewrite (ScanFacts.c_str_plain line (proj1 Htyped)).
  assert (Hfuel : Text.safeScanInt_loop
                    (String.length (String.append line (String Text.nl rest)))
                    rest = Text.safeScanInt rest).
  { apply LoopFacts.loop_fuel; rewrite ?ScanFacts.length_app; cbn; lia. }
  destruct Hbad as [Hblank | Hnone].
  - assert (He : Text.is_empty_line
                   (String.append line (String Text.nl EmptyString)) = true).
    { unfold Text.is_empty_line.
      rewrite ScanFacts.skip_blanks_lead by exact Hblank. reflexivity. }
    rewrite He. exact Hfuel.
  - rewrite Hnone.
    destruct (Text.is_empty_line _); exact Hfuel.
Qed.

Lemma safeScanInt_skips_unusable_lines_witness :
  Text.safeScanInt (String.append "12abc" (String Text.nl
                      (String.append "42" (String Text.nl EmptyString))))
  = Some (42, EmptyString).
Proof.
  rewrite (safeScanInt_skips_unusable_lines "12abc"
             (String.append "42" (String Text.nl EmptyString))).
  - reflexivity.
  - split; [reflexivity | cbn; lia].
  - right. reflexivity.
Defined.

(** X22.  On input that holds nothing but white space -- the empty input
    included -- [safeScanInt] never returns: every line is dropped, and
    at the end of the input [fgets] fails on every turn of the loop. *)
Theorem safeScanInt_never_returns_on_white_input stdin :
  Text.white stdin = true -> Text.safeScanInt stdin = None.
Proof.
  intros H. unfold Text.safeScanInt. apply LoopFacts.loop_white. exact H.
Qed.

Lemma safeScanInt_never_returns_on_white_input_witness :
  Text.safeScanInt (String " " (String Text.nl (String Text.tab
                      (String Text.nl EmptyString)))) = None.
Proof.
  apply (safeScanInt_never_returns_on_white_input
           (String " " (String Text.nl (String Text.tab
              (String Text.nl EmptyString))))).
  reflexivity.
Defined.

Lemma unlock_changes_only_the_lock_witness :
  unlock 4711 sample_accounts = sample_accounts /\
  unlock 1001 (unlock 1001 sample_accounts) = unlock 1001 sample_accounts.
Proof.
  destruct (unlock_changes_only_the_lock 4711 sample_accounts) as (H & _).
  destruct (unlock_changes_only_the_lock 1001 sample_accounts) as (_ & _ & _ & I).
  split; [apply H; reflexivity | exact I].
Defined.
